(** * Ping-Tray: the monitoring engine of [Ping-Tray-2dev.py]

    A shallow embedding of the class [NetworkMonitor]: its constructor, the
    prober [ping], the tick [update_status], the loop [monitor_thread], the
    text and icon helpers, and the part of the status window that decides
    which devices of a change record are listed.

    Conventions.
    - Python integers are [Z]; [datetime.now()] is a [Z] (microseconds of the
      wall clock), supplied by the environment of each tick.
    - A [collections.deque] created with [maxlen] is its bound together with
      the list of its items, oldest first.
    - The outside world of one tick (what each subprocess does, what the
      clock shows) is a [tick_env]; everything the code does to the outside
      world (spawning a process, printing, sleeping, notifying) is recorded
      in a trace of [event]s.
    - Methods run in the monad [M]: they read and write the one
      [NetworkMonitor] object, extend the trace, and either complete with a
      value or raise a Python exception. *)

From stdpp Require Import gmap strings list pretty.
From Stdlib Require Import ZArith Sorted Lia.

Set Default Proof Using "Type".

(** ** collections.deque with a maxlen *)

Module Deque.

Record deque (A : Type) := Build { maxlen : Z; items : list A }.
Arguments Build {A} _ _.
Arguments maxlen {A} _.
Arguments items {A} _.

(** [deque(maxlen=n)] *)
Definition new {A} (n : Z) : deque A := Build n [].

(** [len(d)] *)
Definition len {A} (d : deque A) : Z := Z.of_nat (length (items d)).

(** [d.append(x)]: the item is put at the right end; when the deque then
    holds more than [maxlen] items, one item is dropped from the left. *)
Definition append {A} (d : deque A) (x : A) : deque A :=
  let l := items d ++ [x] in
  Build (maxlen d)
        (if (maxlen d <? Z.of_nat (length l))%Z then tail l else l).

End Deque.

Import Deque.

(** ** Exceptions, and what one subprocess can do *)

Inductive exn :=
| TimeoutExpired                 (* subprocess.TimeoutExpired *)
| SubprocessError (msg : string) (* any other subprocess.SubprocessError *)
| OtherException (msg : string). (* any other subclass of Exception *)

Inductive exn_class := CTimeoutExpired | CSubprocessError | CException.

(** [isinstance(e, c)], which an [except c] clause tests.
    [TimeoutExpired] is a subclass of [SubprocessError]. *)
Definition isinstance (e : exn) (c : exn_class) : bool :=
  match c, e with
  | CTimeoutExpired, TimeoutExpired => true
  | CTimeoutExpired, _ => false
  | CSubprocessError, (TimeoutExpired | SubprocessError _) => true
  | CSubprocessError, _ => false
  | CException, _ => true
  end.

(** [str(e)] *)
Definition exn_str (e : exn) : string :=
  match e with
  | TimeoutExpired => "timed out"
  | SubprocessError msg => msg
  | OtherException msg => msg
  end.

(** What the environment makes of one attempt (lines 83-92): [Popen] cannot
    start the command (an [OSError] or [ValueError]), or the process is
    started and [communicate] raises, or it returns and the process has a
    return code. *)
Inductive attempt_result :=
| PopenFails (msg : string)
| CommunicateRaises (e : exn)
| Exits (returncode : Z).

(** ** The trace of effects *)

Inductive color := green | red.

(** The icon drawn by [create_icon]: a square split in two halves. *)
Record image := Image { size : Z * Z; left_half : color; right_half : color }.

Inductive message :=
| MsgPingTimeout (ip : string) (attempt : Z)
| MsgPingError (ip : string) (attempt : Z) (err : string)
| MsgUnexpected (ip : string) (attempt : Z) (err : string)
| MsgUpdated (current_time : Z) (d1 d2 : bool)
| MsgHistoryLengths (n_timestamps n_device1 n_device2 : Z).

Inductive event :=
| EPopen (command : list string)
| ECommunicate (timeout : Z)
| EKill
| EPrint (m : message)
| ESleep (milliseconds : Z)
| ENotify (title message : string).

(** ** The object *)

Record old_new := OldNew { old : bool; new : bool }.

(** A value stored under a key of a change record. *)
Inductive change_field :=
| FTime (t : Z)
| FDevice (c : old_new).

(** The dict built at lines 127-131. *)
Abbreviation change_record := (gmap string change_field).

Record History := mkHistory {
  timestamps : deque Z;
  device1 : deque Z;
  device2 : deque Z;
  status_changes : deque change_record
}.

(** The pystray icon object, as far as [update_status] writes to it. *)
Record tray_icon := TrayIcon { icon_image : image; title : string }.

Record NetworkMonitor := mkNetworkMonitor {
  ip1 : string;
  ip2 : string;
  ping_timeout : Z;
  ping_retries : Z;
  check_interval : Z;
  running : bool;
  device1_status : bool;
  device2_status : bool;
  icon : option tray_icon;
  icon_size : Z * Z;
  history : History
}.

Definition set_device1_status (b : bool) (s : NetworkMonitor) : NetworkMonitor :=
  mkNetworkMonitor (ip1 s) (ip2 s) (ping_timeout s) (ping_retries s)
    (check_interval s) (running s) b (device2_status s) (icon s)
    (icon_size s) (history s).

Definition set_device2_status (b : bool) (s : NetworkMonitor) : NetworkMonitor :=
  mkNetworkMonitor (ip1 s) (ip2 s) (ping_timeout s) (ping_retries s)
    (check_interval s) (running s) (device1_status s) b (icon s)
    (icon_size s) (history s).

Definition set_icon (i : option tray_icon) (s : NetworkMonitor) : NetworkMonitor :=
  mkNetworkMonitor (ip1 s) (ip2 s) (ping_timeout s) (ping_retries s)
    (check_interval s) (running s) (device1_status s) (device2_status s) i
    (icon_size s) (history s).

Definition set_history (h : History) (s : NetworkMonitor) : NetworkMonitor :=
  mkNetworkMonitor (ip1 s) (ip2 s) (ping_timeout s) (ping_retries s)
    (check_interval s) (running s) (device1_status s) (device2_status s)
    (icon s) (icon_size s) h.

(** [int(24 * 3600 / check_interval)]: true division, then truncation
    towards zero. For the integers used here the float quotient truncates
    to the integer quotient. *)
Definition max_history (check_interval : Z) : Z :=
  Z.quot (24 * 3600) check_interval.

(** [NetworkMonitor.__init__] *)
Definition init : NetworkMonitor :=
  let check_interval := 5%Z in
  let max_history := max_history check_interval in
  {| ip1 := "192.168.0.1";
     ip2 := "192.168.0.2";
     ping_timeout := 1;
     ping_retries := 2;
     check_interval := check_interval;
     running := true;
     device1_status := false;
     device2_status := false;
     icon := None;
     icon_size := (32, 32)%Z;
     history := {| timestamps := Deque.new max_history;
                   device1 := Deque.new max_history;
                   device2 := Deque.new max_history;
                   status_changes := Deque.new 100 |} |}.

(** ** The monad of methods *)

Inductive completion (A : Type) :=
| Normal (a : A)
| Raised (e : exn).
Arguments Normal {A} _.
Arguments Raised {A} _.

Record run_result (A : Type) := Run {
  trace : list event;
  final : NetworkMonitor;
  outcome : completion A
}.
Arguments Run {A} _ _ _.
Arguments trace {A} _.
Arguments final {A} _.
Arguments outcome {A} _.

Definition M (A : Type) : Type := NetworkMonitor → run_result A.

Definition M_ret_def {A} (a : A) : M A := λ s, Run [] s (Normal a).

Definition M_bind_def {A B} (k : A → M B) (m : M A) : M B :=
  λ s, let r := m s in
       match outcome r with
       | Normal a =>
           let r' := k a (final r) in
           Run (trace r ++ trace r') (final r') (outcome r')
       | Raised e => Run (trace r) (final r) (Raised e)
       end.

#[export] Instance M_ret : MRet M := @M_ret_def.
#[export] Instance M_bind : MBind M := @M_bind_def.

Definition get_self : M NetworkMonitor := λ s, Run [] s (Normal s).
Definition modify_self (f : NetworkMonitor → NetworkMonitor) : M unit :=
  λ s, Run [] (f s) (Normal tt).
Definition emit (e : event) : M unit := λ s, Run [e] s (Normal tt).
Definition raise {A} (e : exn) : M A := λ s, Run [] s (Raised e).

(** [try: body  except ...: handler]. The handler receives the exception
    and decides, clause by clause, whether it catches it. *)
Definition try_except {A} (body : M A) (handler : exn → M A) : M A :=
  λ s, let r := body s in
       match outcome r with
       | Normal a => r
       | Raised e =>
           let r' := handler e (final r) in
           Run (trace r ++ trace r') (final r') (outcome r')
       end.

(** ** ping (lines 67-105) *)

Definition ping_command (windows : bool) (timeout : Z) (ip : string)
  : list string :=
  if windows
  then ["C:\Windows\System32\ping.exe"; "-n"; "1"; "-w"; pretty timeout; ip]
  else ["ping"; "-c"; "1"; "-W"; pretty timeout; ip].

(** Lines 83-92: [Popen], then [communicate]; the value is
    [process.returncode]. *)
Definition run_process (command : list string) (timeout : Z)
    (res : attempt_result) : M Z :=
  emit (EPopen command) ;;
  match res with
  | PopenFails msg => raise (OtherException msg)
  | CommunicateRaises e => emit (ECommunicate timeout) ;; raise e
  | Exits returncode => emit (ECommunicate timeout) ;; mret returncode
  end.

(** The three [except] clauses, in the order of the source. An exception
    that no clause catches propagates. [print] and [process.kill()] are
    taken to complete. *)
Definition ping_handler (ip : string) (attempt : nat) (e : exn)
  : M (option bool) :=
  if isinstance e CTimeoutExpired then
    emit (EPrint (MsgPingTimeout ip (Z.of_nat attempt + 1))) ;;
    emit EKill ;;
    mret None
  else if isinstance e CSubprocessError then
    emit (EPrint (MsgPingError ip (Z.of_nat attempt + 1) (exn_str e))) ;;
    mret None
  else if isinstance e CException then
    emit (EPrint (MsgUnexpected ip (Z.of_nat attempt + 1) (exn_str e))) ;;
    mret None
  else raise e.

(** One pass through the [try] statement of the loop body. [Some b] is a
    [return b] out of the loop, [None] falls through to the [sleep]. *)
Definition ping_attempt (ip : string) (windows : bool)
    (res : attempt_result) (attempt : nat) : M (option bool) :=
  try_except
    (self ← get_self;
     let command := ping_command windows (ping_timeout self) ip in
     returncode ← run_process command (ping_timeout self + 1) res;
     if (returncode =? 0)%Z then mret (Some true) else mret None)
    (ping_handler ip attempt).

(** [for attempt in range(self.ping_retries)]: [remaining] passes are left,
    the next one is number [attempt]; [probe k] is what the environment
    makes of pass [k]. *)
Fixpoint ping_loop (ip : string) (windows : bool)
    (probe : nat → attempt_result) (remaining attempt : nat) : M bool :=
  match remaining with
  | O => mret false
  | S remaining' =>
      r ← ping_attempt ip windows (probe attempt) attempt;
      match r with
      | Some b => mret b
      | None =>
          emit (ESleep 500) ;;
          ping_loop ip windows probe remaining' (S attempt)
      end
  end.

Definition ping (ip : string) (windows : bool)
    (probe : nat → attempt_result) : M bool :=
  self ← get_self;
  ping_loop ip windows probe (Z.to_nat (ping_retries self)) 0.

(** ** Text and icon helpers *)

Definition newline : string := String (Ascii.ascii_of_nat 10) EmptyString.

(** [create_icon] (lines 52-65): the left half shows device 1, the right
    half device 2. *)
Definition create_icon (self : NetworkMonitor) : image :=
  let color1 := if device1_status self then green else red in
  let color2 := if device2_status self then green else red in
  Image (icon_size self) color1 color2.

(** [get_status_text] (lines 301-305) *)
Definition get_status_text (self : NetworkMonitor) : string :=
  let status1 := if device1_status self then "Online" else "Offline" in
  let status2 := if device2_status self then "Online" else "Offline" in
  "Device 1 (" +:+ ip1 self +:+ "): " +:+ status1 +:+ newline +:+
  "Device 2 (" +:+ ip2 self +:+ "): " +:+ status2.

(** ** update_status (lines 107-143) *)

(** What the outside world does during one tick: the platform test of line
    70, the fate of each subprocess of the two [ping] calls, and the value
    of [datetime.now()] at line 114. *)
Record tick_env := TickEnv {
  windows : bool;
  probe1 : nat → attempt_result;
  probe2 : nat → attempt_result;
  now : Z
}.

Definition append_timestamps (t : Z) (h : History) : History :=
  mkHistory (Deque.append (timestamps h) t) (device1 h) (device2 h)
    (status_changes h).

Definition append_device1 (v : Z) (h : History) : History :=
  mkHistory (timestamps h) (Deque.append (device1 h) v) (device2 h)
    (status_changes h).

Definition append_device2 (v : Z) (h : History) : History :=
  mkHistory (timestamps h) (device1 h) (Deque.append (device2 h) v)
    (status_changes h).

Definition append_status_changes (c : change_record) (h : History) : History :=
  mkHistory (timestamps h) (device1 h) (device2 h)
    (Deque.append (status_changes h) c).

(** The dict literal of lines 127-131. *)
Definition make_change_record (current_time : Z) (old_status : bool * bool)
    (new1 new2 : bool) : change_record :=
  <["time" := FTime current_time]>
    (<["device1" := FDevice (OldNew old_status.1 new1)]>
       (<["device2" := FDevice (OldNew old_status.2 new2)]> ∅)).

(** [(a, b) != old_status] on tuples of booleans. *)
Definition status_differs (a b : bool) (old_status : bool * bool) : bool :=
  negb (bool_decide ((a, b) = old_status)).

Definition update_status (env : tick_env) : M unit :=
  self ← get_self;
  let old_status := (device1_status self, device2_status self) in
  r1 ← ping (ip1 self) (windows env) (probe1 env);
  modify_self (set_device1_status r1) ;;
  self ← get_self;
  r2 ← ping (ip2 self) (windows env) (probe2 env);
  modify_self (set_device2_status r2) ;;
  let current_time := now env in
  (* Update history *)
  modify_self (λ s, set_history (append_timestamps current_time (history s)) s) ;;
  modify_self (λ s, set_history
    (append_device1 (if device1_status s then 1 else 0) (history s)) s) ;;
  modify_self (λ s, set_history
    (append_device2 (if device2_status s then 1 else 0) (history s)) s) ;;
  (* Print debug information *)
  self ← get_self;
  emit (EPrint (MsgUpdated current_time (device1_status self)
                  (device2_status self))) ;;
  emit (EPrint (MsgHistoryLengths (Deque.len (timestamps (history self)))
                  (Deque.len (device1 (history self)))
                  (Deque.len (device2 (history self))))) ;;
  (* Record status changes *)
  (if status_differs (device1_status self) (device2_status self) old_status
   then
     let change_record :=
       make_change_record current_time old_status
         (device1_status self) (device2_status self) in
     modify_self (λ s, set_history
       (append_status_changes change_record (history s)) s)
   else mret tt) ;;
  self ← get_self;
  match icon self with
  | Some i =>
      modify_self (set_icon (Some (TrayIcon (create_icon self) (title i)))) ;;
      self ← get_self;
      modify_self (set_icon
        (Some (TrayIcon (create_icon self) (get_status_text self)))) ;;
      (* Notify on status change *)
      self ← get_self;
      if status_differs (device1_status self) (device2_status self) old_status
      then emit (ENotify "Network Status Change" (get_status_text self))
      else mret tt
  | None => mret tt
  end.

(** ** monitor_thread (lines 295-299)

    One element of [envs] per pass through the loop body; the loop is cut
    off when the environments run out. *)
Fixpoint monitor_thread (envs : list tick_env) : M unit :=
  match envs with
  | [] => mret tt
  | env :: envs' =>
      self ← get_self;
      if running self then
        update_status env ;;
        self ← get_self;
        emit (ESleep (check_interval self * 1000)) ;;
        monitor_thread envs'
      else mret tt
  end.

(** ** The list of changes in the status window (lines 260-274) *)

Inductive text_item :=
| TimeText (t : Z)                     (* the strftime line, tag 'time' *)
| TaggedText (text tag : string)
| PlainText (text : string).

(** [change[key]] for a device key; [None] is a [KeyError]. *)
Definition device_field (change : change_record) (key : string)
  : option old_new :=
  match change !! key with
  | Some (FDevice c) => Some c
  | _ => None
  end.

Definition time_field (change : change_record) : option Z :=
  match change !! "time" with
  | Some (FTime t) => Some t
  | _ => None
  end.

(** The text inserted for one device (lines 264-267 and 269-272): nothing
    unless its old and new flags differ. *)
Definition device_text (label ip : string) (c : old_new) : list text_item :=
  if negb (eqb (old c) (new c)) then
    let status := if new c then "Online" else "Offline" in
    let tag := if new c then "online" else "offline" in
    [TaggedText ("   " +:+ label +:+ " (" +:+ ip +:+ "): Changed to "
                 +:+ status +:+ newline) tag]
  else [].

(** The body of the loop over the change records. *)
Definition change_text (self : NetworkMonitor) (change : change_record)
  : option (list text_item) :=
  t ← time_field change;
  c1 ← device_field change "device1";
  c2 ← device_field change "device2";
  Some ([TimeText t]
        ++ device_text "Device 1" (ip1 self) c1
        ++ device_text "Device 2" (ip2 self) c2
        ++ [PlainText newline]).

(** ** Observations on traces and runs *)

Definition is_popen (e : event) : bool :=
  match e with EPopen _ => true | _ => false end.

Definition is_sleep (e : event) : bool :=
  match e with ESleep _ => true | _ => false end.

(** The number of probe attempts (subprocesses that [Popen] was asked to
    start) in a trace. *)
Definition attempts (t : list event) : nat := length (List.filter is_popen t).

(** The number of calls of [time.sleep] in a trace. *)
Definition sleeps (t : list event) : nat := length (List.filter is_sleep t).

(** The notifications of a trace, as (title, message), in order. *)
Fixpoint notifications (t : list event) : list (string * string) :=
  match t with
  | [] => []
  | ENotify title message :: t' => (title, message) :: notifications t'
  | _ :: t' => notifications t'
  end.

(** Offset of the first pass, among the [n] passes that start at pass [k],
    whose process exits with return code 0. *)
Fixpoint first_success (probe : nat → attempt_result) (n k : nat)
  : option nat :=
  match n with
  | O => None
  | S n' =>
      match probe k with
      | Exits 0 => Some O
      | _ => S <$> first_success probe n' (S k)
      end
  end.

(** The composite status of the object. *)
Definition composite (s : NetworkMonitor) : bool * bool :=
  (device1_status s, device2_status s).

(** The object after [__init__], with the tray icon as [run] left it
    ([None] when [update_status] is called on a fresh object). *)
Definition started (i : option tray_icon) : NetworkMonitor := set_icon i init.

(** The object after the monitoring loop has gone through [envs]. *)
Definition after_ticks (i : option tray_icon) (envs : list tick_env)
  : NetworkMonitor :=
  final (monitor_thread envs (started i)).

(** ** A tick in closed form

    What [update_status] computes, written without the monad; lemma
    [update_status_run] proves that the method computes exactly this. *)

(** The value of [self.ping(...)]: some pass within the retries succeeds. *)
Definition ping_value (retries : Z) (probe : nat → attempt_result) : bool :=
  bool_decide (is_Some (first_success probe (Z.to_nat retries) 0)).

Definition tick_history (env : tick_env) (s : NetworkMonitor) (b1 b2 : bool)
  : History :=
  let h := history s in
  mkHistory
    (Deque.append (timestamps h) (now env))
    (Deque.append (device1 h) (if b1 then 1 else 0)%Z)
    (Deque.append (device2 h) (if b2 then 1 else 0)%Z)
    (if status_differs b1 b2 (composite s)
     then Deque.append (status_changes h)
            (make_change_record (now env) (composite s) b1 b2)
     else status_changes h).

(** The object after the tick, apart from the icon. *)
Definition tick_object (env : tick_env) (s : NetworkMonitor) : NetworkMonitor :=
  let b1 := ping_value (ping_retries s) (probe1 env) in
  let b2 := ping_value (ping_retries s) (probe2 env) in
  mkNetworkMonitor (ip1 s) (ip2 s) (ping_timeout s) (ping_retries s)
    (check_interval s) (running s) b1 b2 (icon s) (icon_size s)
    (tick_history env s b1 b2).

Definition tick_final (env : tick_env) (s : NetworkMonitor) : NetworkMonitor :=
  let s' := tick_object env s in
  mkNetworkMonitor (ip1 s) (ip2 s) (ping_timeout s) (ping_retries s)
    (check_interval s) (running s) (device1_status s') (device2_status s')
    (match icon s with
     | Some _ => Some (TrayIcon (create_icon s') (get_status_text s'))
     | None => None
     end)
    (icon_size s) (history s').

Definition tick_notifications (env : tick_env) (s : NetworkMonitor)
  : list (string * string) :=
  match icon s with
  | Some _ =>
      if status_differs (ping_value (ping_retries s) (probe1 env))
           (ping_value (ping_retries s) (probe2 env)) (composite s)
      then [("Network Status Change", get_status_text (tick_object env s))]
      else []
  | None => []
  end.

(** The ticks of [envs], one after the other. *)
Fixpoint ticks (envs : list tick_env) (s : NetworkMonitor) : NetworkMonitor :=
  match envs with
  | [] => s
  | env :: envs' => ticks envs' (tick_final env s)
  end.

(** [runs m s t s' a]: started on the object [s], the method [m] completes
    normally with value [a], trace [t] and object [s']. *)
Definition runs {A} (m : M A) (s : NetworkMonitor) (t : list event)
    (s' : NetworkMonitor) (a : A) : Prop :=
  m s = Run t s' (Normal a).

(** What [__init__] fixes and the ticks keep: the bounds of the four
    deques, the settings, and the lengths of the series. *)
Record history_invariant (s : NetworkMonitor) : Prop := HistoryInvariant {
  inv_retries : ping_retries s = 2%Z;
  inv_interval : check_interval s = 5%Z;
  inv_running : running s = true;
  inv_maxlen_timestamps : maxlen (timestamps (history s)) = 17280%Z;
  inv_maxlen_device1 : maxlen (device1 (history s)) = 17280%Z;
  inv_maxlen_device2 : maxlen (device2 (history s)) = 17280%Z;
  inv_maxlen_changes : maxlen (status_changes (history s)) = 100%Z;
  inv_len_device1 :
    Deque.len (device1 (history s)) = Deque.len (timestamps (history s));
  inv_len_device2 :
    Deque.len (device2 (history s)) = Deque.len (timestamps (history s));
  inv_len_timestamps : (Deque.len (timestamps (history s)) ≤ 17280)%Z;
  inv_len_changes : (Deque.len (status_changes (history s)) ≤ 100)%Z
}.

(** ** Sample environments *)

(** A host that answers: every process exits with return code 0. *)
Definition answers : nat → attempt_result := λ _, Exits 0.

(** A host that does not answer: ping exits with return code 1. *)
Definition silent : nat → attempt_result := λ _, Exits 1.

(** A host whose first ping times out and whose second one is answered. *)
Definition answers_second : nat → attempt_result :=
  λ k, match k with O => CommunicateRaises TimeoutExpired | _ => Exits 0 end.

(** A tick at time [t] in which device 1 answers and device 2 does not. *)
Definition env_up_down (t : Z) : tick_env := TickEnv false answers silent t.

(** A tick at time [t] in which neither device answers. *)
Definition env_down_down (t : Z) : tick_env := TickEnv false silent silent t.

(** A tick at time [t] in which both devices answer. *)
Definition env_up_up (t : Z) : tick_env := TickEnv false answers answers t.

(** [n] ticks, at times 1 to [n], in which both devices flip: they answer
    at the odd times and are silent at the even ones. *)
Definition flipping (n : nat) : list tick_env :=
  map (λ k, if Nat.odd k then env_up_up (Z.of_nat k)
            else env_down_down (Z.of_nat k))
      (seq 1 n).

(** The line of the status window for a device that changed (lines 265-267
    and 270-272): its label and address, the new status, and the tag. *)
Definition changed_line (label ip : string) (online : bool) : text_item :=
  TaggedText ("   " +:+ label +:+ " (" +:+ ip +:+ "): Changed to "
              +:+ (if online then "Online" else "Offline") +:+ newline)
    (if online then "online" else "offline").

(** ** ping, with the effects of the except clauses scripted as well

    In [ping] above the calls made inside the except clauses, [print] and
    [process.kill()], always complete. Here the environment says of each
    attempt what the subprocess does and also whether one of these calls
    raises. Nothing encloses the except clauses, so what they raise leaves
    [ping]. Lemma [ping_io_agrees] relates the two. *)

Record attempt_io := AttemptIO {
  io_result : attempt_result;     (* what Popen and communicate do *)
  io_print : option exn;          (* what the print of the clause raises *)
  io_kill : option exn            (* what process.kill() raises *)
}.

(** A call that the environment lets complete, leaving [ev] in the trace,
    or makes raise. *)
Definition scripted (ev : event) (raises : option exn) : M unit :=
  match raises with
  | None => emit ev
  | Some e => raise e
  end.

(** The three [except] clauses (lines 95-101). *)
Definition ping_handler_io (ip : string) (attempt : nat) (io : attempt_io)
    (e : exn) : M (option bool) :=
  if isinstance e CTimeoutExpired then
    scripted (EPrint (MsgPingTimeout ip (Z.of_nat attempt + 1))) (io_print io) ;;
    scripted EKill (io_kill io) ;;
    mret None
  else if isinstance e CSubprocessError then
    scripted (EPrint (MsgPingError ip (Z.of_nat attempt + 1) (exn_str e)))
      (io_print io) ;;
    mret None
  else if isinstance e CException then
    scripted (EPrint (MsgUnexpected ip (Z.of_nat attempt + 1) (exn_str e)))
      (io_print io) ;;
    mret None
  else raise e.

Definition ping_attempt_io (ip : string) (windows : bool) (io : attempt_io)
    (attempt : nat) : M (option bool) :=
  try_except
    (self ← get_self;
     let command := ping_command windows (ping_timeout self) ip in
     returncode ← run_process command (ping_timeout self + 1) (io_result io);
     if (returncode =? 0)%Z then mret (Some true) else mret None)
    (ping_handler_io ip attempt io).

Fixpoint ping_loop_io (ip : string) (windows : bool)
    (io : nat → attempt_io) (remaining attempt : nat) : M bool :=
  match remaining with
  | O => mret false
  | S remaining' =>
      r ← ping_attempt_io ip windows (io attempt) attempt;
      match r with
      | Some b => mret b
      | None =>
          emit (ESleep 500) ;;
          ping_loop_io ip windows io remaining' (S attempt)
      end
  end.

Definition ping_io (ip : string) (windows : bool) (io : nat → attempt_io)
  : M bool :=
  self ← get_self;
  ping_loop_io ip windows io (Z.to_nat (ping_retries self)) 0.

(** The first attempt runs into the time-out and the process cannot be
    killed. *)
Definition io_kill_fails : nat → attempt_io :=
  λ _, AttemptIO (CommunicateRaises TimeoutExpired) None
         (Some (OtherException "PermissionError")).

(** The ping command cannot be started and the message about it cannot be
    printed. *)
Definition io_print_fails : nat → attempt_io :=
  λ _, AttemptIO (PopenFails "FileNotFoundError")
         (Some (OtherException "BrokenPipeError")) None.

(** ** Further observations on traces *)

Definition is_kill (e : event) : bool :=
  match e with EKill => true | _ => false end.

(** The number of calls of [process.kill()] in a trace. *)
Definition kills (t : list event) : nat := length (List.filter is_kill t).

(** [communicate] raised [TimeoutExpired] in this pass. *)
Definition is_timeout (res : attempt_result) : bool :=
  match res with CommunicateRaises TimeoutExpired => true | _ => false end.

(** The number of passes, among the [m] passes that start at pass [k], in
    which [communicate] timed out. *)
Definition timed_out (probe : nat → attempt_result) (k m : nat) : nat :=
  length (List.filter (λ j, is_timeout (probe j)) (seq k m)).

(** What a call of [ping] for [ip] may do to the outside world: start the
    ping command of the platform for that address, wait for it with the
    time-out plus one second, kill it, print, and sleep half a second. *)
Definition ping_event_ok (windows : bool) (timeout : Z) (ip : string)
    (e : event) : Prop :=
  match e with
  | EPopen command => command = ping_command windows timeout ip
  | ECommunicate t => t = (timeout + 1)%Z
  | ESleep ms => ms = 500%Z
  | EKill | EPrint _ => True
  | ENotify _ _ => False
  end.

(** What the monitoring loop on the object [s] may do to the outside
    world: ping one of the two configured addresses, print, sleep half a
    second or the check interval, and notify a status change. *)
Definition loop_event_ok (s : NetworkMonitor) (e : event) : Prop :=
  match e with
  | EPopen command =>
      ∃ w, command = ping_command w (ping_timeout s) (ip1 s)
           ∨ command = ping_command w (ping_timeout s) (ip2 s)
  | ECommunicate t => t = (ping_timeout s + 1)%Z
  | ESleep ms => ms = 500%Z ∨ ms = (check_interval s * 1000)%Z
  | ENotify title _ => title = "Network Status Change"
  | EKill | EPrint _ => True
  end.

(** ** The history as a whole *)

(** The composite status after each of the ticks of [envs], in order. *)
Definition statuses (i : option tray_icon) (envs : list tick_env)
  : list (bool * bool) :=
  map (λ k, composite (after_ticks i (take k envs))) (seq 1 (length envs)).

(** The value stored in a device series for a flag (lines 118-119). *)
Definition sample (b : bool) : Z := if b then 1 else 0.

(** The change records of a sequence of observations (time, composite
    status), starting from the composite status [old]: one record for each
    observation that differs from the one before it. *)
Fixpoint transitions (old : bool * bool) (obs : list (Z * (bool * bool)))
  : list change_record :=
  match obs with
  | [] => []
  | (t, new) :: obs' =>
      (if bool_decide (new ≠ old)
       then [make_change_record t old new.1 new.2] else [])
      ++ transitions new obs'
  end.

(** The [n] most recent items of a list, for a bound [n] of a deque. *)
Definition recent {A} (n : Z) (l : list A) : list A :=
  drop (Z.to_nat (Z.of_nat (length l) - n)) l.

(** ** The status window, continued *)

(** The text widget of the status changes tab (lines 258-274): the header,
    then the records of the log, the most recent first. [None] is a
    [KeyError] of one of the lookups. *)
Definition changes_view (self : NetworkMonitor) : option (list text_item) :=
  bodies ← mapM (change_text self)
              (reverse (items (status_changes (history self))));
  Some (TaggedText ("Recent Status Changes:" +:+ newline +:+ newline) "header"
        :: concat bodies).

(** The times of the time lines of a text, in order. *)
Definition time_lines (text : list text_item) : list Z :=
  omap (λ it, match it with TimeText t => Some t | _ => None end) text.

(** One day, in microseconds. *)
Definition day : Z := 24 * 3600 * 1000000.

(** The number of days of the calendar of [datetime], from 0001-01-01 to
    9999-12-31. For the graph a datetime is the number of microseconds
    since 0001-01-01 00:00, at least 0 and less than
    [datetime_days * day]. *)
Definition datetime_days : Z := 3652059.

(** [t.replace(hour=0, minute=0, second=0, microsecond=0)] *)
Definition midnight (t : Z) : Z := (t - t mod day)%Z.

(** What lines 177-193 do to the x-axis of the graph. *)
Inductive axis_result :=
| AxisUntouched                          (* [if times:] is false *)
| AxisLimits (start_time end_time : Z)   (* [ax.set_xlim(start_time, end_time)] *)
| AxisOverflow.                          (* [+ timedelta(days=1)] raises OverflowError *)

(** The limits of the x-axis (lines 177 and 188-193): nothing is set while
    the history is empty; adding one day to the midnight of the last day
    of the calendar is out of the range of [datetime]. *)
Definition axis_limits (self : NetworkMonitor) (current_time : Z)
  : axis_result :=
  match items (timestamps (history self)) with
  | [] => AxisUntouched
  | _ :: _ =>
      let end_time := (midnight current_time + day)%Z in
      if (end_time <? datetime_days * day)%Z
      then let start_time := (end_time - day)%Z in
           AxisLimits start_time end_time
      else AxisOverflow
  end.

(** ** on_clicked (lines 307-316) *)

Inductive gui_event :=
| GShowStatusWindow   (* self.show_status_window() *)
| GRootQuit           (* self.root.quit() *)
| GIconStop.          (* self.icon.stop() *)

Definition set_running (b : bool) (s : NetworkMonitor) : NetworkMonitor :=
  mkNetworkMonitor (ip1 s) (ip2 s) (ping_timeout s) (ping_retries s)
    (check_interval s) b (device1_status s) (device2_status s) (icon s)
    (icon_size s) (history s).

(** [has_root] is [hasattr(self, 'root')]; the value is what the handler
    does to the windows and the object it leaves. *)
Definition on_clicked (has_root : bool) (item_text : string)
    (self : NetworkMonitor) : list gui_event * NetworkMonitor :=
  if String.eqb item_text "Status" then ([GShowStatusWindow], self)
  else if String.eqb item_text "Exit" then
    let self' := set_running false self in
    ((if has_root then [GRootQuit] else [])
     ++ (match icon self' with Some _ => [GIconStop] | None => [] end),
     self')
  else ([], self).

(** ** Unfolding the monad *)

Lemma bind_run {A B} (m : M A) (k : A → M B) (s : NetworkMonitor) :
  (m ≫= k) s =
  match outcome (m s) with
  | Normal a =>
      Run (trace (m s) ++ trace (k a (final (m s))))
          (final (k a (final (m s)))) (outcome (k a (final (m s))))
  | Raised e => Run (trace (m s)) (final (m s)) (Raised e)
  end.
Proof. reflexivity. Qed.

Lemma attempts_app t1 t2 : attempts (t1 ++ t2) = (attempts t1 + attempts t2)%nat.
Proof. unfold attempts. by rewrite List.filter_app, length_app. Qed.

Lemma sleeps_app t1 t2 : sleeps (t1 ++ t2) = (sleeps t1 + sleeps t2)%nat.
Proof. unfold sleeps. by rewrite List.filter_app, length_app. Qed.

Lemma notifications_app t1 t2 :
  notifications (t1 ++ t2) = notifications t1 ++ notifications t2.
Proof.
  induction t1 as [|e t1 IH]; [done|].
  destruct e; simpl; by rewrite ?IH.
Qed.

(** ** The prober *)

(** Every exception is caught by one of the three clauses. *)
Lemma ping_handler_catches ip attempt e s :
  ∃ t, ping_handler ip attempt e s = Run t s (Normal None)
       ∧ attempts t = 0%nat ∧ sleeps t = 0%nat ∧ notifications t = [].
Proof.
  destruct e; eexists; (split; [reflexivity|]); done.
Qed.

(** One pass: exactly one subprocess, no sleep, no exception; it leaves the
    loop exactly when the process exits with return code 0. *)
Lemma ping_attempt_run ip w res attempt s :
  ∃ t, ping_attempt ip w res attempt s =
         Run t s (Normal (match res with Exits 0 => Some true | _ => None end))
       ∧ attempts t = 1%nat ∧ sleeps t = 0%nat ∧ notifications t = [].
Proof.
  destruct res as [msg|e|rc].
  - eexists. split; [reflexivity|done].
  - destruct e; eexists; (split; [reflexivity|done]).
  - destruct rc as [|p|p]; eexists; (split; [reflexivity|done]).
Qed.

Lemma ping_loop_run ip w probe n : ∀ k s,
  ∃ t, ping_loop ip w probe n k s =
         Run t s (Normal (bool_decide (is_Some (first_success probe n k))))
       ∧ attempts t = match first_success probe n k with
                      | Some j => S j | None => n end
       ∧ sleeps t = match first_success probe n k with
                    | Some j => j | None => n end
       ∧ notifications t = [].
Proof.
  induction n as [|n IH]; intros k s.
  - eexists. split; [reflexivity|done].
  - destruct (ping_attempt_run ip w (probe k) k s) as (t1 & E1 & A1 & S1 & N1).
    destruct (IH (S k) s) as (t2 & E2 & A2 & S2 & N2).
    cbn [ping_loop first_success]. rewrite bind_run, E1. cbn [outcome final trace].
    assert (Hfail :
      ∃ t, (emit (ESleep 500) ;; ping_loop ip w probe n (S k)) s =
           Run t s (Normal (bool_decide (is_Some (first_success probe n (S k)))))
           ∧ attempts t = attempts t2 ∧ sleeps t = S (sleeps t2)
           ∧ notifications t = []).
    { rewrite bind_run. cbn [emit outcome final trace]. rewrite E2.
      cbn [outcome final trace]. eexists. split; [reflexivity|].
      change ([ESleep 500] ++ t2) with (ESleep 500 :: t2).
      unfold attempts, sleeps. by cbn [List.filter is_popen is_sleep notifications length]. }
    destruct Hfail as (t3 & E3 & A3 & S3 & N3).
    assert (Hopt : ∀ o : option nat,
      bool_decide (is_Some (S <$> o)) = bool_decide (is_Some o)).
    { intros [j|]; done. }
    destruct (probe k) as [msg|e|rc]; [| |destruct rc as [|p|p]];
      try (rewrite E3; cbn [outcome final trace]; rewrite Hopt;
           eexists; split; [reflexivity|];
           rewrite attempts_app, sleeps_app, notifications_app, A1, S1, N1,
             A3, S3, N3, A2, S2;
           destruct (first_success probe n (S k)); done).
    eexists. split; [reflexivity|].
    rewrite attempts_app, sleeps_app, notifications_app, A1, S1, N1. done.
Qed.

Lemma ping_run ip w probe s :
  ∃ t, ping ip w probe s = Run t s (Normal (ping_value (ping_retries s) probe))
       ∧ attempts t = match first_success probe (Z.to_nat (ping_retries s)) 0 with
                      | Some j => S j | None => Z.to_nat (ping_retries s) end
       ∧ sleeps t = match first_success probe (Z.to_nat (ping_retries s)) 0 with
                    | Some j => j | None => Z.to_nat (ping_retries s) end
       ∧ notifications t = [].
Proof.
  destruct (ping_loop_run ip w probe (Z.to_nat (ping_retries s)) 0 s)
    as (t & E & ?).
  exists t. split; [|done].
  unfold ping. rewrite bind_run. cbn [get_self outcome final trace]. by rewrite E.
Qed.

(** [first_success] finds the least successful pass. *)
Lemma first_success_Some probe n : ∀ k j,
  first_success probe n k = Some j ↔
  (j < n)%nat ∧ probe (k + j)%nat = Exits 0
  ∧ ∀ i, (i < j)%nat → probe (k + i)%nat ≠ Exits 0.
Proof.
  induction n as [|n IH]; intros k j; cbn [first_success].
  - split; [done|]. intros (? & _); lia.
  - assert (Hrec : (S <$> first_success probe n (S k)) = Some j ↔
      ∃ j', j = S j' ∧ first_success probe n (S k) = Some j').
    { destruct (first_success probe n (S k)) as [j'|]; simpl; split.
      - intros [= <-]; eauto.
      - intros (j'' & -> & [= ->]); done.
      - done.
      - intros (? & _ & ?); done. }
    assert (Hgo : probe k ≠ Exits 0 →
      (S <$> first_success probe n (S k)) = Some j ↔
      (j < S n)%nat ∧ probe (k + j)%nat = Exits 0
      ∧ ∀ i, (i < j)%nat → probe (k + i)%nat ≠ Exits 0).
    { intros Hk. rewrite Hrec. split.
      - intros (j' & -> & (Hlt & Hj & Hmin)%IH). split; [lia|]. split.
        + by replace (k + S j')%nat with (S k + j')%nat by lia.
        + intros [|i] Hi; [by rewrite Nat.add_0_r|].
          replace (k + S i)%nat with (S k + i)%nat by lia. apply Hmin; lia.
      - intros (Hlt & Hj & Hmin). destruct j as [|j'].
        + rewrite Nat.add_0_r in Hj. done.
        + exists j'. split; [done|]. apply IH. split; [lia|]. split.
          * by replace (S k + j')%nat with (k + S j')%nat by lia.
          * intros i Hi. replace (S k + i)%nat with (k + S i)%nat by lia.
            apply Hmin; lia. }
    destruct (probe k) as [msg|e|rc] eqn:Ek; [by apply Hgo|by apply Hgo|].
    destruct rc as [|p|p]; [|by apply Hgo|by apply Hgo].
    split.
    + intros [= <-]. rewrite Nat.add_0_r. split; [lia|]. split; [done|].
      intros i Hi; lia.
    + intros (_ & _ & Hmin). destruct j as [|j']; [done|].
      exfalso. apply (Hmin 0%nat); [lia|]. by rewrite Nat.add_0_r.
Qed.

Lemma first_success_None probe n k :
  first_success probe n k = None ↔
  ∀ i, (i < n)%nat → probe (k + i)%nat ≠ Exits 0.
Proof.
  revert k. induction n as [|n IH]; intros k; cbn [first_success].
  - split; [intros _ i Hi; lia|done].
  - assert (Hgo : probe k ≠ Exits 0 →
      (S <$> first_success probe n (S k)) = None ↔
      ∀ i, (i < S n)%nat → probe (k + i)%nat ≠ Exits 0).
    { intros Hk. rewrite fmap_None, IH. split.
      - intros H [|i] Hi; [by rewrite Nat.add_0_r|].
        replace (k + S i)%nat with (S k + i)%nat by lia. apply H; lia.
      - intros H i Hi. replace (S k + i)%nat with (k + S i)%nat by lia.
        apply H; lia. }
    destruct (probe k) as [msg|e|rc] eqn:Ek; [by apply Hgo|by apply Hgo|].
    destruct rc as [|p|p]; [|by apply Hgo|by apply Hgo].
    split; [done|]. intros H. exfalso. apply (H 0%nat); [lia|].
    by rewrite Nat.add_0_r.
Qed.

(** ** The tick *)

Lemma runs_bind {A B} (m : M A) (k : A → M B) s t1 s1 a t2 s2 b :
  runs m s t1 s1 a → runs (k a) s1 t2 s2 b → runs (m ≫= k) s (t1 ++ t2) s2 b.
Proof.
  unfold runs. intros E1 E2. rewrite bind_run, E1.
  cbn [outcome final trace]. by rewrite E2.
Qed.

Lemma runs_get s : runs get_self s [] s s.
Proof. reflexivity. Qed.

Lemma runs_modify f s s' : f s = s' → runs (modify_self f) s [] s' tt.
Proof. by intros <-. Qed.

Lemma runs_emit e s : runs (emit e) s [e] s tt.
Proof. reflexivity. Qed.

Lemma runs_ret {A} (a : A) s : runs (mret a) s [] s a.
Proof. reflexivity. Qed.

Lemma runs_ping ip w probe s :
  runs (ping ip w probe) s (trace (ping ip w probe s)) s
    (ping_value (ping_retries s) probe).
Proof.
  destruct (ping_run ip w probe s) as (t & E & _). unfold runs. by rewrite E.
Qed.

Lemma ping_notifications ip w probe s :
  notifications (trace (ping ip w probe s)) = [].
Proof. destruct (ping_run ip w probe s) as (t & E & _ & _ & N). by rewrite E. Qed.

Ltac simpl_self :=
  cbn [ip1 ip2 ping_timeout ping_retries check_interval running
       device1_status device2_status icon icon_size history
       timestamps device1 device2 status_changes].

Ltac flatten_self :=
  unfold set_device1_status, set_device2_status, set_history, set_icon,
    append_timestamps, append_device1, append_device2, append_status_changes;
  simpl_self.

Ltac run_one :=
  lazymatch goal with
  | |- runs get_self _ _ _ _ => apply runs_get
  | |- runs (modify_self _) _ _ _ _ =>
      apply runs_modify; flatten_self; reflexivity
  | |- runs (emit _) _ _ _ _ => apply runs_emit
  | |- runs (mret _) _ _ _ _ => apply runs_ret
  | |- runs (ping _ _ _) _ _ _ _ => apply runs_ping
  end.

Ltac run_step := eapply runs_bind; [run_one | cbv beta zeta; simpl_self].

Lemma update_status_run env s :
  ∃ t, update_status env s = Run t (tick_final env s) (Normal tt)
       ∧ notifications t = tick_notifications env s.
Proof.
  destruct s as [a1 a2 pt pr ci rn d1 d2 ic isz [ts h1 h2 log]].
  unfold tick_notifications, tick_final, tick_object, tick_history, composite,
    create_icon, get_status_text.
  cbv beta zeta. simpl_self.
  set (b1 := ping_value pr (probe1 env)).
  set (b2 := ping_value pr (probe2 env)).
  destruct (status_differs b1 b2 (d1, d2)) eqn:Hd; destruct ic as [i|];
    (eexists; split;
     [ unfold update_status; repeat run_step;
       fold b1 b2; rewrite Hd; repeat run_step;
       fold b1 b2; rewrite ?Hd; unfold get_status_text; simpl_self; run_one
     | rewrite !notifications_app, !ping_notifications; reflexivity ]).
Qed.

(** ** Deques *)

Section deque_facts.
Context {A : Type}.
Implicit Types (d : deque A) (x : A).

Lemma maxlen_append d x : maxlen (Deque.append d x) = maxlen d.
Proof. reflexivity. Qed.

Lemma items_append_room d x :
  (Deque.len d < maxlen d)%Z → items (Deque.append d x) = items d ++ [x].
Proof.
  unfold Deque.append, Deque.len. intros H. cbn [items maxlen].
  rewrite length_app. cbn [length].
  destruct (Z.ltb_spec (maxlen d) (Z.of_nat (length (items d) + 1))); [lia|done].
Qed.

Lemma items_append_full d x :
  (maxlen d ≤ Deque.len d)%Z → items (Deque.append d x) = tail (items d ++ [x]).
Proof.
  unfold Deque.append, Deque.len. intros H. cbn [items maxlen].
  rewrite length_app. cbn [length].
  destruct (Z.ltb_spec (maxlen d) (Z.of_nat (length (items d) + 1))); [done|lia].
Qed.

(** At capacity the oldest item leaves and the new one enters. *)
Lemma items_append_fifo d x :
  (0 < maxlen d)%Z → Deque.len d = maxlen d →
  items (Deque.append d x) = tail (items d) ++ [x].
Proof.
  intros Hpos Hlen. rewrite items_append_full by lia.
  unfold Deque.len in Hlen. destruct (items d); [simpl in *; lia|done].
Qed.

Lemma len_append d x :
  (0 ≤ maxlen d)%Z → (Deque.len d ≤ maxlen d)%Z →
  Deque.len (Deque.append d x) = Z.min (Deque.len d + 1) (maxlen d).
Proof.
  intros Hpos Hle. destruct (Z.lt_ge_cases (Deque.len d) (maxlen d)) as [Hlt|Hge].
  - unfold Deque.len. rewrite items_append_room by done.
    rewrite length_app. cbn [length]. unfold Deque.len in *. lia.
  - unfold Deque.len. rewrite items_append_full by lia.
    rewrite length_tl, length_app. cbn [length]. unfold Deque.len in *. lia.
Qed.

Lemma last_append d x :
  (0 < maxlen d)%Z → last (items (Deque.append d x)) = Some x.
Proof.
  intros Hpos. destruct (Z.lt_ge_cases (Deque.len d) (maxlen d)) as [Hlt|Hge].
  - rewrite items_append_room by done. apply last_snoc.
  - rewrite items_append_full by lia. unfold Deque.len in Hge.
    destruct (items d) as [|y l]; [simpl in *; lia|].
    cbn [app tail]. apply last_snoc.
Qed.

Lemma items_append_suffix d x :
  items (Deque.append d x) `suffix_of` items d ++ [x].
Proof.
  unfold Deque.append. cbn [items].
  destruct (maxlen d <? _)%Z; [|done].
  destruct (items d ++ [x]) as [|y l]; [done|]. by apply suffix_cons_r.
Qed.
End deque_facts.

(** ** The loop *)

Lemma final_update_status env s : final (update_status env s) = tick_final env s.
Proof. destruct (update_status_run env s) as (t & E & _). by rewrite E. Qed.


Lemma notifications_update_status env s :
  notifications (trace (update_status env s)) = tick_notifications env s.
Proof. destruct (update_status_run env s) as (t & E & N). by rewrite E. Qed.

Lemma monitor_thread_run envs : ∀ s,
  running s = true → ∃ t, runs (monitor_thread envs) s t (ticks envs s) tt.
Proof.
  induction envs as [|env envs IH]; intros s Hr.
  - by exists [].
  - destruct (update_status_run env s) as (t1 & E1 & _).
    destruct (IH (tick_final env s)) as (t2 & E2); [done|].
    eexists. cbn [monitor_thread ticks].
    eapply runs_bind; [apply runs_get|]. cbv beta. rewrite Hr.
    eapply runs_bind; [exact E1|].
    eapply runs_bind; [apply runs_get|].
    eapply runs_bind; [apply runs_emit|]. exact E2.
Qed.

Lemma ticks_snoc envs env : ∀ s,
  ticks (envs ++ [env]) s = tick_final env (ticks envs s).
Proof. induction envs as [|e envs IH]; intros s; [done|]. apply IH. Qed.

Lemma after_ticks_ticks i envs : after_ticks i envs = ticks envs (started i).
Proof.
  unfold after_ticks.
  destruct (monitor_thread_run envs (started i)) as (t & E); [done|].
  by rewrite E.
Qed.

(** One more pass of the loop is one more [update_status]. *)
Lemma after_ticks_snoc i envs env :
  after_ticks i (envs ++ [env]) = final (update_status env (after_ticks i envs)).
Proof. by rewrite final_update_status, !after_ticks_ticks, ticks_snoc. Qed.


(** ** The invariant *)

Lemma invariant_started i : history_invariant (started i).
Proof. by split. Qed.

Lemma invariant_tick env s :
  history_invariant s → history_invariant (tick_final env s).
Proof.
  intros [].
  split; cbn [tick_final tick_object tick_history ping_retries check_interval
              running history timestamps device1 device2 status_changes];
    rewrite ?maxlen_append; try done;
    try (destruct (status_differs _ _ _); [|done]);
    rewrite ?maxlen_append, ?len_append by lia; lia.
Qed.

Lemma invariant_ticks envs : ∀ s,
  history_invariant s → history_invariant (ticks envs s).
Proof.
  induction envs as [|env envs IH]; intros s Hs; [done|].
  apply IH. by apply invariant_tick.
Qed.

Lemma invariant_after_ticks i envs : history_invariant (after_ticks i envs).
Proof. rewrite after_ticks_ticks. apply invariant_ticks, invariant_started. Qed.


(** ** Properties of the prober *)

(** C3. [ping] makes at most [ping_retries] attempts (2 as configured). It
    returns [True] at the first attempt whose process exits with return
    code 0, without a further attempt, and it returns [False] only when all
    [ping_retries] attempts were made and none of them succeeded. *)
Theorem ping_attempts_until_first_success ip w probe s :
  let r := ping ip w probe s in
  let n := Z.to_nat (ping_retries s) in
  ping_retries init = 2%Z ∧
  (attempts (trace r) ≤ n)%nat ∧
  (∀ k, (k < n)%nat → probe k = Exits 0 →
        (∀ j, (j < k)%nat → probe j ≠ Exits 0) →
        outcome r = Normal true ∧ attempts (trace r) = S k) ∧
  (outcome r = Normal false →
        attempts (trace r) = n ∧ ∀ k, (k < n)%nat → probe k ≠ Exits 0).
Proof.
  intros r n. subst r n.
  destruct (ping_run ip w probe s) as (t & E & Ha & _).
  rewrite E. cbn [trace outcome]. unfold ping_value.
  set (n := Z.to_nat (ping_retries s)) in *.
  split; [done|]. split; [|split].
  - rewrite Ha. destruct (first_success probe n 0) as [j|] eqn:Ef; [|done].
    apply first_success_Some in Ef as (? & _). lia.
  - intros k Hk Hok Hmin.
    assert (Ef : first_success probe n 0 = Some k).
    { apply first_success_Some. by split. }
    rewrite Ha, Ef. by split.
  - intros Hfalse. injection Hfalse as Hfalse.
    apply bool_decide_eq_false in Hfalse.
    destruct (first_success probe n 0) as [j|] eqn:Ef; [by destruct Hfalse|].
    split; [done|]. intros k Hk. by apply (first_success_None probe n 0).
Qed.

Lemma ping_attempts_until_first_success_witness :
  outcome (ping "192.168.0.1" false answers_second init) = Normal true
  ∧ attempts (trace (ping "192.168.0.1" false answers_second init)) = 2%nat.
Proof.
  apply (ping_attempts_until_first_success "192.168.0.1" false answers_second
           init).
  - vm_compute. lia.
  - reflexivity.
  - intros j Hj. assert (j = 0%nat) as -> by lia. discriminate.
Defined.

(** While the calls inside the except clauses complete, [ping_io] is
    [ping]. *)
Lemma ping_attempt_io_agrees ip w io attempt s :
  io_print io = None → io_kill io = None →
  ping_attempt_io ip w io attempt s = ping_attempt ip w (io_result io) attempt s.
Proof.
  destruct io as [res pr kl]. cbn [io_print io_kill io_result].
  intros -> ->. reflexivity.
Qed.

Lemma ping_loop_io_agrees ip w io n : ∀ k s,
  (∀ j, io_print (io j) = None ∧ io_kill (io j) = None) →
  ping_loop_io ip w io n k s = ping_loop ip w (λ j, io_result (io j)) n k s.
Proof.
  induction n as [|n IH]; intros k s Hio; [done|].
  cbn [ping_loop_io ping_loop]. rewrite !bind_run.
  destruct (Hio k) as [Hp Hk]. rewrite ping_attempt_io_agrees by done.
  destruct (ping_attempt_run ip w (io_result (io k)) k s) as (t & E & _).
  rewrite E. cbn [outcome final trace].
  destruct (io_result (io k)) as [msg|e|[|p|p]]; try reflexivity;
    rewrite !bind_run; cbn [emit outcome final trace]; by rewrite IH.
Qed.

Lemma ping_io_agrees ip w io s :
  (∀ j, io_print (io j) = None ∧ io_kill (io j) = None) →
  ping_io ip w io s = ping ip w (λ j, io_result (io j)) s.
Proof.
  intros Hio. unfold ping_io, ping. rewrite !bind_run.
  cbn [get_self outcome final trace]. by rewrite ping_loop_io_agrees.
Qed.

(** What [Popen] and [communicate] raise is caught: as long as the calls
    inside the except clauses complete, [ping_io] returns a boolean,
    [False] when no attempt succeeds. *)
Lemma ping_io_catches_probe_errors ip w io s :
  (∀ j, io_print (io j) = None ∧ io_kill (io j) = None) →
  (∃ b, outcome (ping_io ip w io s) = Normal b)
  ∧ ((∀ k, (k < Z.to_nat (ping_retries s))%nat → io_result (io k) ≠ Exits 0) →
     outcome (ping_io ip w io s) = Normal false).
Proof.
  intros Hio. rewrite ping_io_agrees by done.
  destruct (ping_run ip w (λ j, io_result (io j)) s) as (t & E & _).
  rewrite E. cbn [outcome]. split; [eauto|].
  intros Hfail. unfold ping_value. f_equal. apply bool_decide_eq_false.
  assert (first_success (λ j, io_result (io j)) (Z.to_nat (ping_retries s)) 0
          = None) as ->.
  { by apply first_success_None. }
  by intros [? ?].
Qed.

(** An attempt either completes, or raises what [print] or
    [process.kill()] raised inside its except clause. *)
Lemma ping_attempt_io_outcome ip w io attempt s :
  (∃ t r, ping_attempt_io ip w io attempt s = Run t s (Normal r))
  ∨ (∃ t e, ping_attempt_io ip w io attempt s = Run t s (Raised e)
            ∧ (io_print io = Some e ∨ io_kill io = Some e)).
Proof.
  destruct io as [res [pe|] [ke|]]; destruct res as [msg|[| |]|[|p|p]];
    first [ left; eexists _, _; reflexivity
          | right; eexists _, _; split; [reflexivity|cbn; eauto] ].
Qed.

(** The only exceptions that leave [ping] are those raised inside an
    except clause. *)
Lemma ping_loop_io_raises ip w io n : ∀ k s e,
  outcome (ping_loop_io ip w io n k s) = Raised e →
  ∃ j, io_print (io j) = Some e ∨ io_kill (io j) = Some e.
Proof.
  induction n as [|n IH]; intros k s e; [done|].
  cbn [ping_loop_io]. rewrite bind_run.
  destruct (ping_attempt_io_outcome ip w (io k) k s)
    as [(t & r & E)|(t & e' & E & He)]; rewrite E; cbn [outcome final trace].
  - destruct r as [b|]; [done|].
    rewrite bind_run. cbn [emit outcome final trace]. apply IH.
  - intros [= <-]. eauto.
Qed.

Lemma ping_io_raises_only_from_clause ip w io s e :
  outcome (ping_io ip w io s) = Raised e →
  ∃ j, io_print (io j) = Some e ∨ io_kill (io j) = Some e.
Proof.
  unfold ping_io. rewrite bind_run. cbn [get_self outcome final trace].
  apply ping_loop_io_raises.
Qed.

(** C5, on the code. An exception raised inside an except clause leaves
    [ping]. On the configured object, when the first attempt runs into the
    time-out and [process.kill()] raises, [ping] raises that exception
    after this one attempt instead of returning [False]; so it does when
    the ping command cannot be started and the [print] of the last clause
    raises. *)
Theorem ping_propagates_error_of_except_clause :
  let r := ping_io "192.168.0.1" false io_kill_fails init in
  let r' := ping_io "192.168.0.1" false io_print_fails init in
  outcome r = Raised (OtherException "PermissionError")
  ∧ attempts (trace r) = 1%nat
  ∧ outcome r' = Raised (OtherException "BrokenPipeError")
  ∧ attempts (trace r') = 1%nat.
Proof. vm_compute. done. Qed.

(** The number of sleeps of a call of [ping]: one after every attempt that
    did not succeed, the last one included. *)
Lemma ping_sleeps ip w probe s :
  let r := ping ip w probe s in
  let n := Z.to_nat (ping_retries s) in
  (∀ k, first_success probe n 0 = Some k → sleeps (trace r) = k) ∧
  (first_success probe n 0 = None → sleeps (trace r) = n).
Proof.
  intros r n. subst r n.
  destruct (ping_run ip w probe s) as (t & E & _ & Hs & _).
  rewrite E. cbn [trace]. rewrite Hs.
  split; [intros k ->|intros ->]; done.
Qed.

(** C9, on the code. With the configured two retries and a host that never
    answers, [ping] returns [False] after two attempts and two sleeps of
    half a second: the second sleep follows the last attempt and is the
    last thing the call does. *)
Theorem ping_sleeps_after_last_attempt :
  let r := ping "192.168.0.1" false silent init in
  outcome r = Normal false
  ∧ attempts (trace r) = 2%nat
  ∧ sleeps (trace r) = 2%nat
  ∧ last (trace r) = Some (ESleep 500).
Proof. vm_compute. done. Qed.

(** ** Properties of the tick *)

Lemma status_differs_true a b o : status_differs a b o = true ↔ (a, b) ≠ o.
Proof.
  unfold status_differs. rewrite negb_true_iff, bool_decide_eq_false. done.
Qed.

Lemma status_differs_false a b o : status_differs a b o = false ↔ (a, b) = o.
Proof.
  unfold status_differs. rewrite negb_false_iff, bool_decide_eq_true. done.
Qed.

Lemma composite_tick_final env s :
  composite (tick_final env s)
  = (ping_value (ping_retries s) (probe1 env),
     ping_value (ping_retries s) (probe2 env)).
Proof. reflexivity. Qed.

Lemma icon_tick_final env s : is_Some (icon (tick_final env s)) ↔ is_Some (icon s).
Proof.
  cbn [tick_final icon]. destruct (icon s); [|done]. split; eauto.
Qed.

Lemma icon_after_ticks i envs : is_Some (icon (after_ticks i envs)) ↔ is_Some i.
Proof.
  induction envs as [|env envs IH] using rev_ind; [done|].
  by rewrite after_ticks_snoc, final_update_status, icon_tick_final.
Qed.

(** The log after a tick, by cases on the composite status. *)
Lemma status_changes_tick env s :
  let s' := final (update_status env s) in
  (composite s' ≠ composite s →
   status_changes (history s')
   = Deque.append (status_changes (history s))
       (make_change_record (now env) (composite s)
          (device1_status s') (device2_status s'))) ∧
  (composite s' = composite s →
   status_changes (history s') = status_changes (history s)).
Proof.
  intros s'. subst s'.
  rewrite final_update_status, composite_tick_final.
  cbn [tick_final tick_object tick_history history status_changes
       device1_status device2_status].
  split; intros H.
  - apply status_differs_true in H. by rewrite H.
  - apply status_differs_false in H. by rewrite H.
Qed.

(** C1, as the code has it. The composite status starts as (False, False).
    At every tick, the first one included, a change record is appended to
    the log exactly when the composite status found by the tick differs from
    the composite status before the tick; otherwise the log is left as it
    was. The record carries the time of the tick and the old and new flags. *)
Theorem status_change_logged_iff_composite_differs i envs env :
  let s := after_ticks i envs in
  let s' := final (update_status env s) in
  composite (after_ticks i []) = (false, false) ∧
  after_ticks i (envs ++ [env]) = s' ∧
  (composite s' ≠ composite s →
   status_changes (history s')
   = Deque.append (status_changes (history s))
       (make_change_record (now env) (composite s)
          (device1_status s') (device2_status s'))) ∧
  (composite s' = composite s →
   status_changes (history s') = status_changes (history s)).
Proof.
  intros s s'. subst s'. split; [done|]. split; [apply after_ticks_snoc|].
  apply status_changes_tick.
Qed.

Lemma status_change_logged_iff_composite_differs_witness :
  status_changes (history (final (update_status (env_up_down 10)
                                    (after_ticks None [env_down_down 5]))))
  = Deque.append (status_changes (history (after_ticks None [env_down_down 5])))
      (make_change_record 10 (false, false) true false).
Proof.
  apply (status_change_logged_iff_composite_differs None [env_down_down 5]
           (env_up_down 10)).
  vm_compute. discriminate.
Defined.

(** C1 as stated fails at the first tick: on a fresh object, a first tick
    in which device 1 answers leaves one change record in the log. *)
Lemma first_tick_logs_a_change :
  length (items (status_changes (history (after_ticks None [env_up_down 10]))))
  = 1%nat.
Proof. vm_compute. reflexivity. Qed.

(** C4 as stated fails: after a tick in which only device 1 changed, the
    record in the log still has an entry for device 2, with equal old and
    new flags. *)
Lemma change_record_keeps_unchanged_device :
  last (items (status_changes (history (after_ticks None [env_up_down 10]))))
    ≫= (λ c : change_record, c !! "device2")
  = Some (FDevice (OldNew false false)).
Proof. vm_compute. reflexivity. Qed.

(** C4, as the code has it. When the composite status changed at a tick,
    the record appended to the log has exactly the keys time, device1 and
    device2: it holds the (old, new) pair of each device, changed or not.
    Only the status window leaves a device out: the text it builds for such
    a record is the time, then the line of device 1 if and only if the old
    and new flag of device 1 differ, then the line of device 2 if and only
    if the old and new flag of device 2 differ, then an empty line. *)
Theorem change_record_holds_both_devices i envs env :
  let s := after_ticks i envs in
  let s' := final (update_status env s) in
  composite s' ≠ composite s →
  ∃ c : change_record,
    last (items (status_changes (history s'))) = Some c ∧
    c !! "time" = Some (FTime (now env)) ∧
    c !! "device1"
      = Some (FDevice (OldNew (device1_status s) (device1_status s'))) ∧
    c !! "device2"
      = Some (FDevice (OldNew (device2_status s) (device2_status s'))) ∧
    dom c = {[ "time"; "device1"; "device2" ]} ∧
    change_text s' c
    = Some ([TimeText (now env)]
            ++ (if bool_decide (device1_status s ≠ device1_status s')
                then [changed_line "Device 1" (ip1 s') (device1_status s')]
                else [])
            ++ (if bool_decide (device2_status s ≠ device2_status s')
                then [changed_line "Device 2" (ip2 s') (device2_status s')]
                else [])
            ++ [PlainText newline]).
Proof.
  intros s s' Hchg.
  destruct (status_changes_tick env s) as (Hyes & _).
  fold s' in Hyes. rewrite (Hyes Hchg).
  destruct (invariant_after_ticks i envs) as [].
  fold s in inv_maxlen_changes0.
  exists (make_change_record (now env) (composite s)
            (device1_status s') (device2_status s')).
  split; [apply last_append; lia|].
  unfold make_change_record, composite. cbn [fst snd].
  split; [done|]. split; [done|]. split; [done|]. split.
  { rewrite !dom_insert_L, dom_empty_L. set_solver. }
  unfold change_text.
  generalize (ip1 s') (ip2 s') (now env).
  generalize (device1_status s) (device1_status s')
    (device2_status s) (device2_status s').
  intros [] [] [] [] a1 a2 t; reflexivity.
Qed.

Lemma change_record_holds_both_devices_witness :
  ∃ c : change_record,
    last (items (status_changes (history (final
      (update_status (env_up_down 10) (after_ticks None [])))))) = Some c
    ∧ c !! "time" = Some (FTime 10)
    ∧ c !! "device2" = Some (FDevice (OldNew false false))
    ∧ change_text (final (update_status (env_up_down 10) (after_ticks None [])))
        c
      = Some [TimeText 10;
              changed_line "Device 1" "192.168.0.1" true;
              PlainText newline].
Proof.
  destruct (change_record_holds_both_devices None [] (env_up_down 10))
    as (c & Hlast & Htime & _ & Hd2 & _ & Hview).
  - vm_compute. discriminate.
  - exists c. split; [exact Hlast|]. split; [exact Htime|].
    split; [exact Hd2|]. exact Hview.
Defined.

(** C6, as the code has it. A tick notifies only when the tray icon is
    set. With the icon set, the tick emits one notification, titled
    "Network Status Change" and carrying the status text of the new
    composite status, exactly when the composite status found by the tick
    differs from the composite status before the tick; in every other case,
    and always without an icon, it emits none. *)
Theorem notification_iff_icon_and_change i envs env :
  let s := after_ticks i envs in
  let r := update_status env s in
  let s' := final r in
  (is_Some i ∧ composite s' ≠ composite s →
   notifications (trace r)
   = [("Network Status Change", get_status_text s')]) ∧
  (¬ (is_Some i ∧ composite s' ≠ composite s) →
   notifications (trace r) = []).
Proof.
  intros s r s'. subst r s'.
  rewrite notifications_update_status, final_update_status,
    composite_tick_final.
  pose proof (icon_after_ticks i envs) as Hicon. fold s in Hicon.
  unfold tick_notifications.
  split.
  - intros (Hi & Hchg). apply Hicon in Hi as [ic Hic]. rewrite Hic.
    apply status_differs_true in Hchg. by rewrite Hchg.
  - intros Hno. destruct (icon s) as [ic|] eqn:Hic; [|done].
    destruct (status_differs _ _ _) eqn:Hd; [|done].
    exfalso. apply Hno. split.
    + apply Hicon. eauto.
    + by apply status_differs_true.
Qed.

Lemma notification_iff_icon_and_change_witness :
  notifications (trace (update_status (env_up_down 10)
    (after_ticks (Some (TrayIcon (create_icon init) (get_status_text init)))
       [env_down_down 5])))
  = [("Network Status Change",
      get_status_text (final (update_status (env_up_down 10)
        (after_ticks (Some (TrayIcon (create_icon init) (get_status_text init)))
           [env_down_down 5]))))].
Proof.
  apply (notification_iff_icon_and_change
           (Some (TrayIcon (create_icon init) (get_status_text init)))
           [env_down_down 5] (env_up_down 10)).
  split; [eauto|]. vm_compute. discriminate.
Defined.

(** C6 as stated fails without the icon: on an object whose icon was never
    set, a second tick that changes the composite status from (True, False)
    to (False, False) emits no notification. *)
Lemma no_notification_without_icon :
  composite (final (update_status (env_down_down 20)
               (after_ticks None [env_up_down 10])))
  ≠ composite (after_ticks None [env_up_down 10])
  ∧ notifications (trace (update_status (env_down_down 20)
                            (after_ticks None [env_up_down 10]))) = [].
Proof. vm_compute. split; [discriminate|reflexivity]. Qed.

(** C2. After any sequence of ticks each of the three series holds at most
    17280 = ceil(24 * 3600 / 5) items, which is the bound given to the
    deques, and the log holds at most 100. When a series is full, the next
    tick drops its oldest item and appends the new one, and its length
    stays 17280; when the log is full, a tick that changes the composite
    status drops the oldest record and appends the new one, and its length
    stays 100. *)
Theorem history_bounded_fifo i envs env :
  let s := after_ticks i envs in
  let s' := final (update_status env s) in
  let h := history s in
  let h' := history s' in
  (maxlen (timestamps h) = max_history (check_interval s)
   ∧ max_history (check_interval s) = 17280
   ∧ (24 * 3600 + 5 - 1) / 5 = 17280
   ∧ maxlen (status_changes h) = 100)%Z ∧
  (Deque.len (timestamps h) ≤ 17280 ∧ Deque.len (device1 h) ≤ 17280
   ∧ Deque.len (device2 h) ≤ 17280 ∧ Deque.len (status_changes h) ≤ 100)%Z ∧
  (Deque.len (timestamps h) = 17280%Z →
   items (timestamps h') = tail (items (timestamps h)) ++ [now env]
   ∧ Deque.len (timestamps h') = 17280%Z) ∧
  (Deque.len (device1 h) = 17280%Z →
   items (device1 h')
   = tail (items (device1 h)) ++ [if device1_status s' then 1 else 0]%Z
   ∧ Deque.len (device1 h') = 17280%Z) ∧
  (Deque.len (device2 h) = 17280%Z →
   items (device2 h')
   = tail (items (device2 h)) ++ [if device2_status s' then 1 else 0]%Z
   ∧ Deque.len (device2 h') = 17280%Z) ∧
  (Deque.len (status_changes h) = 100%Z → composite s' ≠ composite s →
   items (status_changes h')
   = tail (items (status_changes h))
     ++ [make_change_record (now env) (composite s)
           (device1_status s') (device2_status s')]
   ∧ Deque.len (status_changes h') = 100%Z).
Proof.
  cbv zeta.
  pose proof (invariant_after_ticks i envs) as [].
  generalize dependent (after_ticks i envs). intros s. intros.
  rewrite final_update_status.
  cbn [tick_final tick_object tick_history history timestamps device1 device2
       device1_status device2_status].
  split; [by rewrite inv_interval0|]. split; [lia|].
  repeat split.
  - apply items_append_fifo; lia.
  - rewrite len_append by lia. lia.
  - apply items_append_fifo; lia.
  - rewrite len_append by lia. lia.
  - apply items_append_fifo; lia.
  - rewrite len_append by lia. lia.
  - unfold tick_history. cbn [status_changes].
    rewrite (proj2 (status_differs_true _ _ _)) by done.
    apply items_append_fifo; lia.
  - unfold tick_history. cbn [status_changes].
    rewrite (proj2 (status_differs_true _ _ _)) by done.
    rewrite len_append by lia. lia.
Qed.

Lemma history_bounded_fifo_witness :
  items (status_changes (history (final
    (update_status (env_up_up 101) (after_ticks None (flipping 100))))))
  = tail (items (status_changes (history (after_ticks None (flipping 100)))))
    ++ [make_change_record 101 (false, false) true true]
  ∧ Deque.len (status_changes (history (final
      (update_status (env_up_up 101) (after_ticks None (flipping 100))))))
    = 100%Z.
Proof.
  apply (history_bounded_fifo None (flipping 100) (env_up_up 101)).
  - vm_compute. reflexivity.
  - vm_compute. discriminate.
Defined.


Lemma StronglySorted_app_r {A} (R : A → A → Prop) (k l : list A) :
  StronglySorted R (k ++ l) → StronglySorted R l.
Proof.
  induction k as [|x k IH]; [done|].
  intros H. apply IH. by apply StronglySorted_inv in H as [? _].
Qed.

(** The stored time stamps are the most recent clock values, in order. *)
Lemma timestamps_ticks_suffix envs : ∀ s,
  items (timestamps (history (ticks envs s)))
  `suffix_of` items (timestamps (history s)) ++ map now envs.
Proof.
  induction envs as [|env envs IH]; intros s.
  - cbn [ticks map]. by rewrite app_nil_r.
  - cbn [ticks map]. etrans; [apply IH|].
    replace (items (timestamps (history s)) ++ now env :: map now envs)
      with ((items (timestamps (history s)) ++ [now env]) ++ map now envs)
      by (by rewrite <- app_assoc).
    apply suffix_app. apply items_append_suffix.
Qed.

(** C8. When the clock values of the ticks are strictly increasing, the
    time stamps stored in the history are strictly increasing, after any
    sequence of ticks. *)
Theorem timestamps_strictly_increasing i envs :
  StronglySorted Z.lt (map now envs) →
  StronglySorted Z.lt (items (timestamps (history (after_ticks i envs)))).
Proof.
  intros Hclock. rewrite after_ticks_ticks.
  destruct (timestamps_ticks_suffix envs (started i)) as (k & Hk).
  cbn [started init set_icon history timestamps items Deque.new app] in Hk.
  apply (StronglySorted_app_r _ k). by rewrite <- Hk.
Qed.

Lemma timestamps_strictly_increasing_witness :
  StronglySorted Z.lt
    (items (timestamps (history
       (after_ticks None [env_up_down 10; env_down_down 20; env_up_up 30])))).
Proof.
  apply (timestamps_strictly_increasing None
           [env_up_down 10; env_down_down 20; env_up_up 30]).
  cbn [map now env_up_down env_down_down env_up_up].
  repeat (constructor; [|repeat constructor; lia]). constructor.
Defined.

(** C10. After every tick the current status agrees with the tail of the
    history: a device's status flag is true exactly when the last item of
    its series is 1, and the last time stamp is the clock value of the
    tick. *)
Theorem current_status_is_history_tail i envs env :
  let s' := final (update_status env (after_ticks i envs)) in
  (device1_status s' = true ↔ last (items (device1 (history s'))) = Some 1%Z) ∧
  (device2_status s' = true ↔ last (items (device2 (history s'))) = Some 1%Z) ∧
  last (items (timestamps (history s'))) = Some (now env).
Proof.
  cbv zeta. rewrite final_update_status.
  destruct (invariant_after_ticks i envs) as [].
  cbn [tick_final tick_object tick_history history timestamps device1 device2
       device1_status device2_status].
  rewrite !last_append by lia.
  repeat split; try done.
  - by intros ->.
  - destruct (ping_value _ (probe1 env)); done.
  - by intros ->.
  - destruct (ping_value _ (probe2 env)); done.
Qed.

(** * Further properties *)

(** ** The prober, continued *)

Lemma attempts_cons e t :
  attempts (e :: t) = ((if is_popen e then 1 else 0) + attempts t)%nat.
Proof. unfold attempts. cbn [List.filter]. by destruct (is_popen e). Qed.

Lemma sleeps_cons e t :
  sleeps (e :: t) = ((if is_sleep e then 1 else 0) + sleeps t)%nat.
Proof. unfold sleeps. cbn [List.filter]. by destruct (is_sleep e). Qed.

Lemma kills_cons e t :
  kills (e :: t) = ((if is_kill e then 1 else 0) + kills t)%nat.
Proof. unfold kills. cbn [List.filter]. by destruct (is_kill e). Qed.

Lemma kills_app t1 t2 : kills (t1 ++ t2) = (kills t1 + kills t2)%nat.
Proof. unfold kills. by rewrite List.filter_app, length_app. Qed.

(** One pass kills the process exactly when [communicate] timed out, and
    does nothing but what [ping_event_ok] allows. *)
Lemma ping_attempt_events ip w res attempt s :
  ∃ t, ping_attempt ip w res attempt s =
         Run t s (Normal (match res with Exits 0 => Some true | _ => None end))
       ∧ attempts t = 1%nat
       ∧ kills t = (if is_timeout res then 1 else 0)%nat
       ∧ Forall (ping_event_ok w (ping_timeout s) ip) t.
Proof.
  destruct res as [msg|e|rc].
  - eexists. split; [reflexivity|]. repeat split; repeat constructor.
  - destruct e; eexists; (split; [reflexivity|]);
      repeat split; repeat constructor.
  - destruct rc as [|p|p]; eexists; (split; [reflexivity|]);
      repeat split; repeat constructor.
Qed.

Lemma timed_out_S probe k m :
  timed_out probe k (S m)
  = ((if is_timeout (probe k) then 1 else 0) + timed_out probe (S k) m)%nat.
Proof.
  unfold timed_out. cbn [seq List.filter]. by destruct (is_timeout (probe k)).
Qed.

Lemma ping_loop_events ip w probe n : ∀ k s,
  ∃ t, trace (ping_loop ip w probe n k s) = t
       ∧ kills t = timed_out probe k (attempts t)
       ∧ Forall (ping_event_ok w (ping_timeout s) ip) t.
Proof.
  induction n as [|n IH]; intros k s.
  - eexists. split; [reflexivity|]. split; [done|constructor].
  - destruct (ping_attempt_events ip w (probe k) k s) as (t1 & E1 & A1 & K1 & F1).
    destruct (IH (S k) s) as (t2 & E2 & K2 & F2).
    eexists. split; [reflexivity|].
    cbn [ping_loop]. rewrite bind_run, E1. cbn [outcome final trace].
    assert (Hgo : kills (t1 ++ ESleep 500 :: t2)
                  = timed_out probe k (attempts (t1 ++ ESleep 500 :: t2))
                  ∧ Forall (ping_event_ok w (ping_timeout s) ip)
                      (t1 ++ ESleep 500 :: t2)).
    { split.
      - rewrite kills_app, attempts_app, A1, attempts_cons. cbn [is_popen].
        rewrite timed_out_S, K1, kills_cons. cbn [is_kill]. by rewrite K2.
      - apply Forall_app. split; [done|]. by constructor. }
    assert (Hstop : kills (t1 ++ []) = timed_out probe k (attempts (t1 ++ []))
                    ∧ Forall (ping_event_ok w (ping_timeout s) ip) (t1 ++ [])).
    { rewrite app_nil_r, A1, timed_out_S, K1. split; [|done].
      unfold timed_out. cbn [seq List.filter length]. lia. }
    destruct (probe k) as [msg|e|rc]; [| |destruct rc as [|p|p]];
      try (rewrite bind_run; cbn [emit outcome final trace];
           rewrite <- E2 in Hgo; exact Hgo).
    exact Hstop.
Qed.

(** X1 (ping). With [ping_retries] at most 0 the loop body never runs:
    [ping] starts no process, does not sleep, and returns [False]. *)
Theorem ping_without_retries ip w probe s :
  (ping_retries s ≤ 0)%Z → ping ip w probe s = Run [] s (Normal false).
Proof.
  intros H. unfold ping. rewrite bind_run. cbn [get_self outcome final trace].
  replace (Z.to_nat (ping_retries s)) with 0%nat by lia. reflexivity.
Qed.

Lemma ping_without_retries_witness :
  ping "192.168.0.1" false answers
    (mkNetworkMonitor "192.168.0.1" "192.168.0.2" 1 0 5 true false false None
       (32, 32)%Z (history init))
  = Run [] (mkNetworkMonitor "192.168.0.1" "192.168.0.2" 1 0 5 true false false
              None (32, 32)%Z (history init)) (Normal false).
Proof.
  apply (ping_without_retries "192.168.0.1" false answers).
  cbn [ping_retries]. lia.
Defined.

(** X2 (ping). [ping] sleeps once after every attempt that did not succeed:
    as often as it made attempts when it returns [False], and once less
    when it returns [True]. *)
Theorem ping_sleeps_per_failed_attempt ip w probe s :
  let r := ping ip w probe s in
  (outcome r = Normal true ∧ attempts (trace r) = S (sleeps (trace r)))
  ∨ (outcome r = Normal false ∧ attempts (trace r) = sleeps (trace r)).
Proof.
  cbv zeta. destruct (ping_run ip w probe s) as (t & E & Ha & Hs & _).
  rewrite E. cbn [trace outcome]. rewrite Ha, Hs. unfold ping_value.
  destruct (first_success probe (Z.to_nat (ping_retries s)) 0) as [j|];
    [left|right]; done.
Qed.

(** X3 (ping). [ping] kills a process exactly when waiting for it timed
    out: the number of kills is the number of attempts made in which
    [communicate] raised [TimeoutExpired]. *)
Theorem ping_kills_timed_out_processes ip w probe s :
  let r := ping ip w probe s in
  kills (trace r) = timed_out probe 0 (attempts (trace r)).
Proof.
  cbv zeta. unfold ping. rewrite bind_run. cbn [get_self outcome final trace app].
  destruct (ping_loop_events ip w probe (Z.to_nat (ping_retries s)) 0 s)
    as (t & E & K & _).
  by rewrite E.
Qed.

Lemma ping_events_ok ip w probe s :
  Forall (ping_event_ok w (ping_timeout s) ip) (trace (ping ip w probe s)).
Proof.
  unfold ping. rewrite bind_run. cbn [get_self outcome final trace app].
  destruct (ping_loop_events ip w probe (Z.to_nat (ping_retries s)) 0 s)
    as (t & E & _ & F).
  by rewrite E.
Qed.

(** X4 (ping). All that a call of [ping] for an address does to the outside
    world is: start the platform's ping command for that very address (one
    echo request, the configured time-out), wait for it at most the
    time-out plus one second, kill it, print, and sleep half a second. It
    never notifies. *)
Theorem ping_only_pings_its_address ip w probe s :
  Forall (ping_event_ok w (ping_timeout s) ip) (trace (ping ip w probe s))
  ∧ notifications (trace (ping ip w probe s)) = []
  ∧ final (ping ip w probe s) = s.
Proof.
  split; [apply ping_events_ok|]. split; [apply ping_notifications|].
  destruct (ping_run ip w probe s) as (t & E & _). by rewrite E.
Qed.

(** ** The tick and the loop, continued *)

Lemma settings_after_ticks i envs :
  let s := after_ticks i envs in
  ip1 s = "192.168.0.1" ∧ ip2 s = "192.168.0.2" ∧ ping_timeout s = 1%Z
  ∧ ping_retries s = 2%Z ∧ check_interval s = 5%Z ∧ running s = true
  ∧ icon_size s = (32, 32)%Z.
Proof.
  induction envs as [|env envs IH] using rev_ind; [by repeat split|].
  cbv zeta in *. rewrite after_ticks_snoc, final_update_status.
  exact IH.
Qed.

(** X5 (update_status, create_icon). On the object built by [__init__],
    whose icon is 32 by 32, after any ticks: when the tray icon is set, a
    tick leaves it showing the status it found, the left half green exactly
    when device 1 is reachable, the right half exactly when device 2 is,
    and the tooltip the status text of the new status. Without an icon,
    none appears. *)
Theorem icon_shows_status i envs env :
  let s := after_ticks i envs in
  let s' := final (update_status env s) in
  icon_size s = (32, 32)%Z
  ∧ match i with
    | Some _ =>
        icon s'
        = Some (TrayIcon
                  (Image (32, 32)%Z
                     (if device1_status s' then green else red)
                     (if device2_status s' then green else red))
                  (get_status_text s'))
    | None => icon s' = None
    end.
Proof.
  cbv zeta. rewrite final_update_status.
  destruct (settings_after_ticks i envs) as (_ & _ & _ & _ & _ & _ & Hsize).
  cbv zeta in Hsize. split; [done|].
  pose proof (icon_after_ticks i envs) as Hicon.
  unfold tick_final, create_icon.
  cbn [icon device1_status device2_status icon_size tick_object]. rewrite Hsize.
  destruct (icon (after_ticks i envs)) as [ic'|]; destruct i as [ic|];
    try reflexivity.
  - by destruct (proj1 Hicon (mk_is_Some _ _ eq_refl)).
  - by destruct (proj2 Hicon (mk_is_Some _ _ eq_refl)).
Qed.

Lemma monitor_thread_not_running envs s :
  running s = false → monitor_thread envs s = Run [] s (Normal tt).
Proof.
  intros H. destruct envs as [|env envs]; [done|].
  cbn [monitor_thread]. rewrite bind_run. cbn [get_self outcome final trace].
  by rewrite H.
Qed.

(** X6 (monitor_thread). With the running flag cleared the loop does
    nothing, however many passes the environment would allow: no probe, no
    sleep, no notification, and the object is left as it was. *)
Theorem monitor_thread_stopped envs s :
  running s = false → monitor_thread envs s = Run [] s (Normal tt).
Proof. apply monitor_thread_not_running. Qed.

Lemma monitor_thread_stopped_witness :
  monitor_thread [env_up_up 10; env_up_up 20] (set_running false init)
  = Run [] (set_running false init) (Normal tt).
Proof.
  apply (monitor_thread_stopped [env_up_up 10; env_up_up 20]
           (set_running false init)).
  reflexivity.
Defined.

Lemma settings_ticks envs : ∀ s,
  let s' := ticks envs s in
  ip1 s' = ip1 s ∧ ip2 s' = ip2 s ∧ ping_timeout s' = ping_timeout s
  ∧ ping_retries s' = ping_retries s ∧ check_interval s' = check_interval s
  ∧ running s' = running s ∧ icon_size s' = icon_size s
  ∧ maxlen (timestamps (history s')) = maxlen (timestamps (history s))
  ∧ maxlen (device1 (history s')) = maxlen (device1 (history s))
  ∧ maxlen (device2 (history s')) = maxlen (device2 (history s))
  ∧ maxlen (status_changes (history s'))
    = maxlen (status_changes (history s)).
Proof.
  induction envs as [|env envs IH]; intros s; [done|].
  cbv zeta. cbn [ticks].
  destruct (IH (tick_final env s))
    as (-> & -> & -> & -> & -> & -> & -> & -> & -> & -> & ->).
  cbn [tick_final tick_object tick_history ip1 ip2 ping_timeout ping_retries
       check_interval running icon_size history timestamps device1 device2
       status_changes].
  rewrite !maxlen_append. repeat split.
  by destruct (status_differs _ _ _).
Qed.


Lemma ping_counts ip w probe s :
  attempts (trace (ping ip w probe s))
  = match first_success probe (Z.to_nat (ping_retries s)) 0 with
    | Some j => S j | None => Z.to_nat (ping_retries s) end
  ∧ sleeps (trace (ping ip w probe s))
    = match first_success probe (Z.to_nat (ping_retries s)) 0 with
      | Some j => j | None => Z.to_nat (ping_retries s) end.
Proof.
  destruct (ping_run ip w probe s) as (t & E & A & S & _).
  rewrite E. cbn [trace]. by rewrite A, S.
Qed.

(** The processes and sleeps of a tick are those of its two calls of
    [ping]. *)
Lemma update_status_counts env s :
  let n := Z.to_nat (ping_retries s) in
  let count probe :=
    match first_success probe n 0 with Some j => S j | None => n end in
  let naps probe :=
    match first_success probe n 0 with Some j => j | None => n end in
  attempts (trace (update_status env s))
  = (count (probe1 env) + count (probe2 env))%nat
  ∧ sleeps (trace (update_status env s))
    = (naps (probe1 env) + naps (probe2 env))%nat.
Proof.
  cbv zeta.
  destruct s as [a1 a2 pt pr ci rn d1 d2 ic isz [ts h1 h2 log]].
  simpl_self.
  set (b1 := ping_value pr (probe1 env)).
  set (b2 := ping_value pr (probe2 env)).
  destruct (status_differs b1 b2 (d1, d2)) eqn:Hd; destruct ic as [i|];
    (lazymatch goal with
     | |- context [update_status env ?s0] =>
         eassert (runs (update_status env) s0 _ _ tt) as H
     end;
     [ unfold update_status; repeat run_step;
       fold b1 b2; rewrite Hd; repeat run_step;
       fold b1 b2; rewrite ?Hd; unfold get_status_text; simpl_self; run_one
     | unfold runs in H; rewrite H; cbn [trace];
       rewrite ?attempts_app, ?sleeps_app, ?attempts_cons, ?sleeps_cons;
       cbn [is_popen is_sleep];
       rewrite !(proj1 (ping_counts _ _ _ _)), !(proj2 (ping_counts _ _ _ _));
       cbn [ping_retries];
       unfold attempts, sleeps; cbn [List.filter length]; lia ]).
Qed.

(** X8 (update_status). A tick makes exactly the attempts and the half
    second sleeps of its two calls of [ping], first for device 1 and then
    for device 2, and therefore at most [2 * ping_retries] of each. *)
Theorem tick_attempts_and_sleeps env s :
  let r := update_status env s in
  let r1 := ping (ip1 s) (windows env) (probe1 env) s in
  let r2 := ping (ip2 s) (windows env) (probe2 env) s in
  attempts (trace r) = (attempts (trace r1) + attempts (trace r2))%nat
  ∧ sleeps (trace r) = (sleeps (trace r1) + sleeps (trace r2))%nat
  ∧ (attempts (trace r) ≤ 2 * Z.to_nat (ping_retries s))%nat
  ∧ (sleeps (trace r) ≤ 2 * Z.to_nat (ping_retries s))%nat.
Proof.
  cbv zeta.
  destruct (update_status_counts env s) as (-> & ->).
  rewrite !(proj1 (ping_counts _ _ _ _)), !(proj2 (ping_counts _ _ _ _)).
  split; [done|]. split; [done|].
  destruct (first_success (probe1 env) _ 0) as [j1|] eqn:F1;
    destruct (first_success (probe2 env) _ 0) as [j2|] eqn:F2;
    try apply first_success_Some in F1 as (? & _);
    try apply first_success_Some in F2 as (? & _); lia.
Qed.

(** ** The history as a whole *)

Lemma tail_drop {A} (l : list A) : tail l = drop 1 l.
Proof. by destruct l. Qed.

(** Appending to a deque that holds the most recent items of [l] gives the
    most recent items of [l] with the new item. *)
Lemma items_append_recent {A} (d : deque A) (l : list A) (x : A) :
  (0 ≤ maxlen d)%Z →
  items d = recent (maxlen d) l →
  items (Deque.append d x) = recent (maxlen d) (l ++ [x]).
Proof.
  intros Hpos Hd.
  assert (Hlen : Deque.len d = Z.min (Z.of_nat (length l)) (maxlen d)).
  { unfold Deque.len. rewrite Hd. unfold recent. rewrite length_drop. lia. }
  unfold recent. rewrite length_app. cbn [length].
  destruct (Z.lt_ge_cases (Deque.len d) (maxlen d)) as [Hlt|Hge].
  - rewrite items_append_room by done. rewrite Hd. unfold recent.
    replace (Z.to_nat (Z.of_nat (length l) - maxlen d)) with 0%nat by lia.
    replace (Z.to_nat (Z.of_nat (length l + 1) - maxlen d)) with 0%nat by lia.
    done.
  - rewrite items_append_full by lia. rewrite Hd. unfold recent.
    rewrite tail_drop, <- drop_app_le by lia. rewrite drop_drop.
    f_equal. lia.
Qed.

Lemma length_statuses i envs : length (statuses i envs) = length envs.
Proof. unfold statuses. by rewrite length_map, length_seq. Qed.

Lemma statuses_snoc i envs env :
  statuses i (envs ++ [env])
  = statuses i envs ++ [composite (after_ticks i (envs ++ [env]))].
Proof.
  unfold statuses. rewrite length_app. cbn [length].
  replace (length envs + 1)%nat with (S (length envs)) by lia.
  rewrite seq_S, map_app. f_equal.
  - apply map_ext_in. intros k Hk%in_seq. by rewrite take_app_le by lia.
  - cbn [map]. rewrite take_ge; [done|]. rewrite length_app. cbn [length]. lia.
Qed.

(** X9 (update_status, __init__). After any sequence of ticks the three
    series hold the samples of the most recent 17280 ticks, oldest first and
    aligned by index: the clock value of each of those ticks, and for each
    device 1 or 0 as the device was found reachable or not at that tick. *)
Theorem series_hold_recent_samples i envs :
  let h := history (after_ticks i envs) in
  items (timestamps h) = recent 17280 (map now envs)
  ∧ items (device1 h) = recent 17280 (map (λ c, sample c.1) (statuses i envs))
  ∧ items (device2 h) = recent 17280 (map (λ c, sample c.2) (statuses i envs)).
Proof.
  cbv zeta. induction envs as [|env envs (IHt & IH1 & IH2)] using rev_ind; [done|].
  rewrite statuses_snoc, !map_app. cbn [map].
  rewrite after_ticks_snoc, final_update_status.
  destruct (invariant_after_ticks i envs) as [].
  cbn [tick_final tick_object tick_history history timestamps device1 device2
       composite device1_status device2_status fst snd].
  rewrite <- inv_maxlen_timestamps0 at 1.
  rewrite <- inv_maxlen_device3 at 1.
  rewrite <- inv_maxlen_device4 at 1.
  split; [|split]; apply items_append_recent; try lia.
  - by rewrite inv_maxlen_timestamps0.
  - by rewrite inv_maxlen_device3.
  - by rewrite inv_maxlen_device4.
Qed.

Lemma transitions_snoc obs : ∀ old t new,
  transitions old (obs ++ [(t, new)])
  = transitions old obs
    ++ (if bool_decide (new ≠ default old (snd <$> last obs))
        then [make_change_record t (default old (snd <$> last obs))
                new.1 new.2]
        else []).
Proof.
  induction obs as [|[t0 c0] obs IH]; intros old t new.
  - cbn [app transitions last fmap option_fmap option_map default].
    by rewrite app_nil_r.
  - cbn [app transitions]. rewrite IH, <- app_assoc. do 2 f_equal.
    rewrite last_cons. by destruct (last obs).
Qed.

Lemma last_status i envs :
  default (false, false) (snd <$> last (zip (map now envs) (statuses i envs)))
  = composite (after_ticks i envs).
Proof.
  destruct envs as [|env envs _] using rev_ind; [done|].
  rewrite statuses_snoc, map_app. cbn [map].
  rewrite zip_with_app by (by rewrite length_map, length_statuses).
  cbn [zip_with]. by rewrite last_snoc.
Qed.

Lemma log_recent i envs :
  items (status_changes (history (after_ticks i envs)))
  = recent 100 (transitions (false, false)
                  (zip (map now envs) (statuses i envs))).
Proof.
  induction envs as [|env envs IH] using rev_ind; [done|].
  rewrite statuses_snoc, map_app. cbn [map].
  rewrite zip_with_app by (by rewrite length_map, length_statuses).
  cbn [zip_with]. rewrite transitions_snoc, last_status, after_ticks_snoc.
  destruct (status_changes_tick env (after_ticks i envs)) as (Hyes & Hno).
  cbv zeta in Hyes, Hno.
  destruct (invariant_after_ticks i envs) as [].
  case_bool_decide as Hchg.
  - rewrite Hyes by done. rewrite <- inv_maxlen_changes0.
    apply items_append_recent; [lia|]. by rewrite inv_maxlen_changes0.
  - rewrite app_nil_r. by rewrite Hno.
Qed.

(** X10 (update_status, __init__). After any sequence of ticks the log
    holds, oldest first, the most recent 100 of the transitions of the run:
    one record for every tick whose composite status differs from the one
    before it (the first tick being compared with (False, False)), with the
    time of that tick and the status before and after. *)
Theorem log_holds_recent_transitions i envs :
  let all := transitions (false, false)
               (zip (map now envs) (statuses i envs)) in
  items (status_changes (history (after_ticks i envs))) = recent 100 all
  ∧ Deque.len (status_changes (history (after_ticks i envs)))
    = Z.min (Z.of_nat (length all)) 100.
Proof.
  cbv zeta. split; [apply log_recent|].
  unfold Deque.len. rewrite log_recent. unfold recent.
  rewrite length_drop. lia.
Qed.

(** ** The status text *)

Lemma string_app_inv_l (a x y : string) : a +:+ x = a +:+ y → x = y.
Proof.
  induction a as [|c a IH]; [done|]. cbn [String.append]. intros [= H]. auto.
Qed.

(** X11 (get_status_text). For given addresses the status text tells the
    composite status: two objects with the same two addresses have the same
    status text exactly when they have the same composite status. *)
Theorem status_text_tells_status s s' :
  ip1 s = ip1 s' → ip2 s = ip2 s' →
  get_status_text s = get_status_text s' ↔ composite s = composite s'.
Proof.
  intros H1 H2. unfold get_status_text, composite. rewrite H1, H2. split.
  - intros H. do 3 apply string_app_inv_l in H.
    destruct (device1_status s), (device1_status s');
      try (cbn [String.append] in H; discriminate H);
      do 5 apply string_app_inv_l in H;
      destruct (device2_status s), (device2_status s');
      try discriminate H; reflexivity.
  - by intros [= -> ->].
Qed.

Lemma status_text_tells_status_witness :
  get_status_text (after_ticks None [env_up_down 10])
  = get_status_text (after_ticks None [env_down_down 5; env_up_down 10])
  ↔ composite (after_ticks None [env_up_down 10])
    = composite (after_ticks None [env_down_down 5; env_up_down 10]).
Proof.
  apply (status_text_tells_status (after_ticks None [env_up_down 10])
           (after_ticks None [env_down_down 5; env_up_down 10]));
    vm_compute; reflexivity.
Defined.

(** ** The status window *)

Lemma transitions_made obs : ∀ old,
  Forall (λ c, ∃ t o n1 n2, c = make_change_record t o n1 n2)
    (transitions old obs).
Proof.
  induction obs as [|[t new] obs IH]; intros old; cbn [transitions];
    [constructor|].
  apply Forall_app. split; [|apply IH].
  case_bool_decide; [|constructor]. constructor; [|constructor]. eauto.
Qed.

(** Every record of the log was built by the dict literal of
    [update_status]. *)
Lemma log_records_made i envs :
  Forall (λ c, ∃ t o n1 n2, c = make_change_record t o n1 n2)
    (items (status_changes (history (after_ticks i envs)))).
Proof.
  rewrite log_recent. unfold recent.
  apply Forall_drop, transitions_made.
Qed.

Lemma time_lines_device_text label ip c :
  time_lines (device_text label ip c) = [].
Proof. unfold device_text. by destruct (negb _). Qed.

Lemma mapM_change_text self l :
  Forall (λ c, ∃ t o n1 n2, c = make_change_record t o n1 n2) l →
  ∃ bodies times,
    mapM (change_text self) l = Some bodies
    ∧ time_lines (concat bodies) = times
    ∧ Forall2 (λ (c : change_record) t, c !! "time" = Some (FTime t)) l times.
Proof.
  induction 1 as [|c l (t & o & n1 & n2 & ->) _ (bodies & times & E & T & F)].
  - exists [], []. by repeat split.
  - eexists (_ :: bodies), (t :: times). split; [|split].
    + cbn [mapM]. rewrite E.
      change (change_text self (make_change_record t o n1 n2))
        with (Some ([TimeText t]
                    ++ device_text "Device 1" (ip1 self) (OldNew o.1 n1)
                    ++ device_text "Device 2" (ip2 self) (OldNew o.2 n2)
                    ++ [PlainText newline])).
      reflexivity.
    + cbn [concat]. unfold time_lines in *. rewrite !omap_app.
      fold (time_lines (device_text "Device 1" (ip1 self) (OldNew o.1 n1))).
      fold (time_lines (device_text "Device 2" (ip2 self) (OldNew o.2 n2))).
      rewrite !time_lines_device_text, T. reflexivity.
    + by constructor.
Qed.

(** X12 (show_status_window, update_status). On the object left by any
    sequence of ticks, the list of status changes is built without a
    missing key, and it shows every record of the log, the most recent
    first: its time lines are the times of the records of the log in
    reverse order. *)
Theorem status_window_lists_the_log i envs :
  let s := after_ticks i envs in
  ∃ text times,
    changes_view s = Some text
    ∧ Forall2 (λ (c : change_record) t, c !! "time" = Some (FTime t))
        (items (status_changes (history s))) times
    ∧ time_lines text = reverse times.
Proof.
  cbv zeta.
  destruct (mapM_change_text (after_ticks i envs)
              (reverse (items (status_changes (history (after_ticks i envs))))))
    as (bodies & times & E & T & F).
  { apply Forall_reverse, log_records_made. }
  exists (TaggedText ("Recent Status Changes:" +:+ newline +:+ newline) "header"
          :: concat bodies), (reverse times).
  split; [|split].
  - unfold changes_view. by rewrite E.
  - apply Forall2_reverse in F. by rewrite reverse_involutive in F.
  - rewrite reverse_involutive. unfold time_lines in *. cbn [omap]. exact T.
Qed.

Lemma same_day_iff (d q u : Z) :
  (0 < d → (d * q ≤ u < d * q + d ↔ u / d = q))%Z.
Proof.
  intros Hd.
  pose proof (Z.div_mod u d ltac:(lia)) as Hu.
  pose proof (Z.mod_pos_bound u d Hd) as Hv.
  generalize dependent (u mod d)%Z. intros v Hu Hv.
  generalize dependent (u / d)%Z. intros p Hu.
  subst u. split; intros H; nia.
Qed.

(** X13 (show_status_window). For a current time within the range of
    [datetime]: while the history is empty the x-axis is left alone; on the
    last day of the calendar computing the end of the axis overflows; in
    every other case the axis is set to exactly the calendar day of the
    current time: it runs from one midnight to the next, contains the
    current time, and a time lies within it exactly when it is of the same
    day as the current time. *)
Theorem axis_covers_current_day self current_time u :
  (0 ≤ current_time < datetime_days * day)%Z →
  (items (timestamps (history self)) = [] →
   axis_limits self current_time = AxisUntouched)
  ∧ (items (timestamps (history self)) ≠ [] →
     ((datetime_days - 1) * day ≤ current_time)%Z →
     axis_limits self current_time = AxisOverflow)
  ∧ (items (timestamps (history self)) ≠ [] →
     (current_time < (datetime_days - 1) * day)%Z →
     ∃ start_time end_time,
       axis_limits self current_time = AxisLimits start_time end_time
       ∧ (end_time - start_time = day
          ∧ start_time mod day = 0
          ∧ 0 ≤ start_time ∧ start_time ≤ current_time < end_time
          ∧ end_time < datetime_days * day
          ∧ (start_time ≤ u < end_time ↔ u / day = current_time / day))%Z).
Proof.
  intros Hrange. unfold axis_limits, midnight.
  assert (Hday : (0 < day)%Z) by done.
  pose proof (Z.div_mod current_time day ltac:(lia)) as Ht.
  pose proof (Z.mod_pos_bound current_time day Hday) as Hr.
  pose proof (same_day_iff day (current_time / day) u Hday) as Hsame.
  set (q := (current_time / day)%Z) in *. clearbody q.
  set (r := (current_time mod day)%Z) in *. clearbody r.
  assert (Hend : (current_time - r + day = day * q + day)%Z) by lia.
  rewrite Hend. clear Hend.
  set (d := day) in *. clearbody d.
  destruct (items (timestamps (history self))) as [|x l]; [by repeat split|].
  replace (d * q + d)%Z with (d * (q + 1))%Z by lia.
  replace (datetime_days * d)%Z with (d * datetime_days)%Z in * by lia.
  split; [done|]. split.
  - intros _ Hlast.
    destruct (Z.ltb_spec (d * (q + 1)) (d * datetime_days)) as [H|H]; [|done].
    apply Z.mul_lt_mono_pos_l in H; [|done].
    assert (d * (q + 1) ≤ d * (datetime_days - 1))%Z
      by (apply Z.mul_le_mono_nonneg_l; lia).
    lia.
  - intros _ Hnot.
    destruct (Z.ltb_spec (d * (q + 1)) (d * datetime_days)) as [H|H].
    + eexists _, _. split; [reflexivity|].
      assert (d * -1 < d * q)%Z as Hq by lia.
      apply Z.mul_lt_mono_pos_l in Hq; [|done].
      assert (d * 0 ≤ d * q)%Z by (apply Z.mul_le_mono_nonneg_l; lia).
      replace (d * (q + 1) - d)%Z with (d * q)%Z by lia.
      split; [lia|]. split; [by rewrite Z.mul_comm, Z_mod_mult|].
      split; [lia|]. split; [lia|]. split; [done|].
      replace (d * (q + 1))%Z with (d * q + d)%Z by lia. exact Hsame.
    + apply Z.mul_le_mono_pos_l in H; [|done].
      assert (d * (datetime_days - 1) ≤ d * q)%Z
        by (apply Z.mul_le_mono_nonneg_l; lia).
      lia.
Qed.

Lemma axis_covers_current_day_witness :
  ∃ start_time end_time,
    axis_limits (after_ticks None [env_up_up 63900000000000000])
      63900000012345678
    = AxisLimits start_time end_time
    ∧ (end_time - start_time = day
       ∧ start_time mod day = 0
       ∧ 0 ≤ start_time ∧ start_time ≤ 63900000012345678 < end_time
       ∧ end_time < datetime_days * day
       ∧ (start_time ≤ 63900000000000000 < end_time
          ↔ 63900000000000000 / day = 63900000012345678 / day))%Z.
Proof.
  apply (axis_covers_current_day
           (after_ticks None [env_up_up 63900000000000000])
           63900000012345678 63900000000000000).
  - vm_compute. split; [discriminate|reflexivity].
  - vm_compute. discriminate.
  - vm_compute. reflexivity.
Defined.

(** ** The menu *)

(** X14 (on_clicked, monitor_thread). Choosing Exit clears the running flag
    and leaves the rest of the object as it was, stops the icon exactly
    when there is one and quits the root window exactly when there is one;
    a loop that starts on the object afterwards makes no probe. An item
    that is neither Status nor Exit has no effect. *)
Theorem exit_stops_monitoring has_root envs s :
  let events := (on_clicked has_root "Exit" s).1 in
  let s' := (on_clicked has_root "Exit" s).2 in
  running s' = false
  ∧ s' = set_running false s
  ∧ monitor_thread envs s' = Run [] s' (Normal tt)
  ∧ (GIconStop ∈ events ↔ is_Some (icon s))
  ∧ (GRootQuit ∈ events ↔ has_root = true)
  ∧ (GShowStatusWindow ∉ events)
  ∧ (∀ item_text, item_text ≠ "Status" → item_text ≠ "Exit" →
       on_clicked has_root item_text s = ([], s)).
Proof.
  cbv zeta. cbn [on_clicked String.eqb Ascii.eqb Bool.eqb fst snd].
  split; [done|]. split; [done|].
  split; [by apply monitor_thread_not_running|].
  cbn [set_running icon].
  split; [|split; [|split]].
  - rewrite is_Some_alt. destruct has_root, (icon s); cbn [app];
      rewrite ?elem_of_cons, ?elem_of_nil; intuition congruence.
  - destruct has_root, (icon s); cbn [app];
      rewrite ?elem_of_cons, ?elem_of_nil; intuition congruence.
  - destruct has_root, (icon s); cbn [app];
      rewrite ?elem_of_cons, ?elem_of_nil; intuition congruence.
  - intros item_text H1%String.eqb_neq H2%String.eqb_neq.
    unfold on_clicked. by rewrite H1, H2.
Qed.

(** ** What the loop does to the outside world *)

Lemma ping_event_ok_loop s w ip e :
  ip = ip1 s ∨ ip = ip2 s →
  ping_event_ok w (ping_timeout s) ip e → loop_event_ok s e.
Proof.
  intros Hip. destruct e; cbn [ping_event_ok loop_event_ok]; try done.
  - intros ->. exists w. destruct Hip as [->| ->]; eauto.
  - eauto.
Qed.

Lemma update_status_events env s :
  Forall (loop_event_ok s) (trace (update_status env s)).
Proof.
  destruct s as [a1 a2 pt pr ci rn d1 d2 ic isz [ts h1 h2 log]].
  set (b1 := ping_value pr (probe1 env)).
  set (b2 := ping_value pr (probe2 env)).
  set (s0 := mkNetworkMonitor a1 a2 pt pr ci rn d1 d2 ic isz
               (mkHistory ts h1 h2 log)).
  assert (Hping : ∀ ip probe s',
    ip = a1 ∨ ip = a2 → ping_timeout s' = pt →
    Forall (loop_event_ok s0) (trace (ping ip (windows env) probe s'))).
  { intros ip probe s' Hip Hpt.
    eapply Forall_impl; [apply ping_events_ok|].
    intros e He. apply (ping_event_ok_loop s0 (windows env) ip); [done|].
    by rewrite Hpt in He. }
  subst s0.
  destruct (status_differs b1 b2 (d1, d2)) eqn:Hd; destruct ic as [i|];
    (lazymatch goal with
     | |- context [update_status env ?s0] =>
         eassert (runs (update_status env) s0 _ _ tt) as H
     end;
     [ unfold update_status; repeat run_step;
       fold b1 b2; rewrite Hd; repeat run_step;
       fold b1 b2; rewrite ?Hd; unfold get_status_text; simpl_self; run_one
     | unfold runs in H; rewrite H; cbn [trace];
       repeat first [ apply Forall_app; split
                    | apply Forall_cons; split
                    | apply Forall_nil ];
       first [ apply Hping; [eauto|reflexivity] | exact I | reflexivity ] ]).
Qed.

Lemma monitor_thread_events envs : ∀ s,
  Forall (loop_event_ok s) (trace (monitor_thread envs s)).
Proof.
  induction envs as [|env envs IH]; intros s; [constructor|].
  destruct (running s) eqn:Hr.
  - destruct (update_status_run env s) as (t1 & E1 & _).
    pose proof (update_status_events env s) as F1. rewrite E1 in F1.
    cbn [trace] in F1.
    cbn [monitor_thread]. rewrite bind_run. cbn [get_self outcome final trace].
    rewrite Hr, bind_run, E1. cbn [outcome final trace].
    rewrite bind_run. cbn [get_self outcome final trace].
    rewrite bind_run. cbn [emit outcome final trace app].
    apply Forall_app. split; [done|].
    apply Forall_cons. split; [right; reflexivity|]. apply (IH (tick_final env s)).
  - rewrite monitor_thread_not_running by done. constructor.
Qed.

(** X15 (monitor_thread, update_status, ping). Whatever the hosts do and
    however long the loop runs, all it does to the outside world is: start
    the platform's ping command for one of the two configured addresses,
    wait for it, kill it, print, sleep half a second or the check interval,
    and notify with the title "Network Status Change". *)
Theorem monitoring_only_pings_configured_hosts envs s :
  Forall (loop_event_ok s) (trace (monitor_thread envs s)).
Proof. apply monitor_thread_events. Qed.
